(** * cryojax.simulator.pose: coordinate rotations and translations

    A shallow embedding of [src/cryojax/simulator/pose.py] and the
    properties its specification states about it.

    Conventions of the embedding.
    - Array entries are floating-point numbers in the program.  They are
      modelled by the real numbers [R]; every statement below is a statement
      about the exact arithmetic the floating-point code approximates.
    - A [jax.numpy] array is a shape together with its entries in row-major
      order ([ndarray]).
    - A Python exception is a value of [exn]; a function that may raise
      returns a [result].
    - [functools.cached_property] caches the value of a pure function of the
      immutable fields; it is modelled by the function itself. *)

From Stdlib Require Import Ascii String DecimalString.
From Stdlib Require Import Reals Lra Lia List Bool Arith.
Import ListNotations.

Open Scope R_scope.

(** ** Exceptions and the error monad *)

(** The exceptions that can leave [pose.py].  [ValueError] is the one the
    module raises itself, with its message.  [AttributeError] comes from
    [getattr], [IndexError] from list indexing, [AssertionError] from the
    shape assertion of [jaxlie.SO3.apply], and [JaxShapeError] stands for the
    shape complaints of [jax.numpy] ([reshape], [matmul]) and [jax.vmap]. *)
Inductive exn : Type :=
| ValueError (msg : string)
| AttributeError (attr : string)
| IndexError
| AssertionError
| JaxShapeError.

Inductive result (A : Type) : Type :=
| Ok (a : A)
| Err (e : exn).

Arguments Ok {A} a.
Arguments Err {A} e.

Definition bind {A B : Type} (m : result A) (k : A -> result B) : result B :=
  match m with
  | Ok a => k a
  | Err e => Err e
  end.

Notation "x <- m ;; k" := (bind m (fun x => k))
  (at level 61, m at next level, right associativity).

Fixpoint mapM {A B : Type} (f : A -> result B) (l : list A) : result (list B) :=
  match l with
  | [] => Ok []
  | a :: l' => b <- f a ;; bs <- mapM f l' ;; Ok (b :: bs)
  end.

Definition is_ok {A : Type} (m : result A) : bool :=
  match m with Ok _ => true | Err _ => false end.

(** ** Arrays *)

Record ndarray (A : Type) : Type := mk_ndarray {
  shape : list nat;
  data : list A
}.

Arguments mk_ndarray {A} shape data.
Arguments shape {A} n.
Arguments data {A} n.

(** Number of entries of an array of the given shape. *)
Definition size_of (s : list nat) : nat := fold_right Nat.mul 1%nat s.

(** An array is well formed when it has as many entries as its shape says. *)
Definition wf_array {A : Type} (a : ndarray A) : Prop :=
  length (data a) = size_of (shape a).

Definition zeros (s : list nat) : ndarray R :=
  mk_ndarray s (repeat 0 (size_of s)).

(** [a.reshape(s)]: the entries are kept, in order; the sizes must agree. *)
Definition reshape {A : Type} (a : ndarray A) (s : list nat) : result (ndarray A) :=
  if Nat.eqb (size_of s) (size_of (shape a))
  then Ok (mk_ndarray s (data a))
  else Err JaxShapeError.

(** The [n] consecutive rows of [m] entries each that a row-major list of
    entries consists of. *)
Fixpoint take_rows {A : Type} (n m : nat) (l : list A) : list (list A) :=
  match n with
  | O => []
  | S n' => firstn m l :: take_rows n' m (skipn m l)
  end.

(** The sub-arrays along the leading axis. *)
Definition unstack {A : Type} (n : nat) (rest : list nat) (l : list A)
  : list (ndarray A) :=
  map (mk_ndarray rest) (take_rows n (size_of rest) l).

(** [jax.vmap(f)(a)]: [f] is traced once on an abstract row, which fixes the
    shape of its output and raises what [f] raises on a row of that shape;
    then [f] is mapped over the leading axis and the outputs are stacked. *)
Definition vmap (f : ndarray R -> result (ndarray R)) (a : ndarray R)
  : result (ndarray R) :=
  match shape a with
  | [] => Err JaxShapeError
  | n :: rest =>
      proto <- f (zeros rest) ;;
      outs <- mapM f (unstack n rest (data a)) ;;
      Ok (mk_ndarray (n :: shape proto) (concat (map data outs)))
  end.

(** ** The rotation-group library *)

(** The rotation-group algebra facility that [pose.py] imports as
    [jaxlie.SO3] and does not define.  The specification lists its five
    primitives (construction from an axis and an angle, construction from a
    quaternion in (w, x, y, z) order, composition, inversion, application to
    one 3-vector) and says that the quaternion is not normalised. *)
Module SO3.

(** Modelled from the spec: the rotation operator, which [pose.py] imports;
    it is stored as its quaternion in (w, x, y, z) order. *)
Record t : Type := mk { w : R; x : R; y : R; z : R }.

(** Modelled from the spec: the imported constructor [SO3(wxyz=...)], which
    keeps the four scalars as they are given. *)
Definition from_wxyz (qw qx qy qz : R) : t := mk qw qx qy qz.

(** Modelled from the spec: the imported constructor of the rotation by
    [theta] radians about the x axis. *)
Definition from_x_radians (theta : R) : t :=
  mk (cos (theta / 2)) (sin (theta / 2)) 0 0.

(** Modelled from the spec: the imported constructor of the rotation by
    [theta] radians about the y axis. *)
Definition from_y_radians (theta : R) : t :=
  mk (cos (theta / 2)) 0 (sin (theta / 2)) 0.

(** Modelled from the spec: the imported constructor of the rotation by
    [theta] radians about the z axis. *)
Definition from_z_radians (theta : R) : t :=
  mk (cos (theta / 2)) 0 0 (sin (theta / 2)).

(** Modelled from the spec: the imported composition [a @ b], the Hamilton
    product of the quaternions. *)
Definition multiply (a b : t) : t :=
  mk (- x a * x b - y a * y b - z a * z b + w a * w b)
     (x a * w b + y a * z b - z a * y b + w a * x b)
     (- x a * z b + y a * w b + z a * x b + w a * y b)
     (x a * y b - y a * x b + z a * w b + w a * z b).

(** Modelled from the spec: the imported inversion [a.inverse()], the
    conjugate of the quaternion. *)
Definition inverse (a : t) : t :=
  mk (w a * 1) (x a * -1) (y a * -1) (z a * -1).

(** Modelled from the spec: the imported identity element. *)
Definition identity : t := mk 1 0 0 0.

(** The squared norm of the quaternion. *)
Definition norm2 (a : t) : R :=
  w a * w a + x a * x a + y a * y a + z a * z a.

(** Modelled from the spec: the imported application to one 3-vector, given
    by its components: [a @ (0, v) @ a.inverse()] without its scalar part. *)
Definition apply_vec (a : t) (v : R * R * R) : R * R * R :=
  let '(v1, v2, v3) := v in
  let r := multiply (multiply a (mk 0 v1 v2 v3)) (inverse a) in
  (x r, y r, z r).

(** Modelled from the spec: the imported [a.apply(target)], which asserts
    that [target] has shape (3,). *)
Definition apply (a : t) (target : ndarray R) : result (ndarray R) :=
  match shape target, data target with
  | [3%nat], [v1; v2; v3] =>
      let '(r1, r2, r3) := apply_vec a (v1, v2, v3) in
      Ok (mk_ndarray [3%nat] [r1; r2; r3])
  | _, _ => Err AssertionError
  end.

(** Modelled from the spec: [getattr(SO3, name)] for the names [pose.py]
    asks for, which are [from_c_radians] for a character [c]: the
    constructor about the axis [c], or no such attribute. *)
Definition getattr (name : string) : result (R -> t) :=
  if String.eqb name "from_x_radians" then Ok from_x_radians
  else if String.eqb name "from_y_radians" then Ok from_y_radians
  else if String.eqb name "from_z_radians" then Ok from_z_radians
  else Err (AttributeError name).

End SO3.

(** The operator [@] of the library, written [@@] here. *)
Infix "@@" := SO3.multiply (at level 40, left associativity).

(** ** Complex numbers *)

Definition C : Type := (R * R)%type.

Definition RtoC (r : R) : C := (r, 0).

(** The imaginary literal [1.0j]. *)
Definition Cj : C := (0, 1).

Definition Copp (a : C) : C := (- fst a, - snd a).

Definition Cmul (a b : C) : C :=
  (fst a * fst b - snd a * snd b, fst a * snd b + snd a * fst b).

Definition Cexp (a : C) : C :=
  (exp (fst a) * cos (snd a), exp (fst a) * sin (snd a)).

(** ** [jax.numpy] functions used by [pose.py] *)

Definition deg2rad (a : R) : R := a * (PI / 180).

Definition dot (u v : list R) : R :=
  fold_right Rplus 0 (map (fun p => fst p * snd p) (combine u v)).

(** A shape split into its leading axes and its last axis. *)
Fixpoint split_last (s : list nat) : option (list nat * nat) :=
  match s with
  | [] => None
  | [k] => Some ([], k)
  | n :: s' =>
      match split_last s' with
      | Some (lead, k) => Some (n :: lead, k)
      | None => None
      end
  end.

(** [jnp.matmul(a, v)] for a rank-1 [v], given by its entries: the last axis
    of [a] is contracted with [v] and must have the length of [v]. *)
Definition matmul (a : ndarray R) (v : list R) : result (ndarray R) :=
  match split_last (shape a) with
  | None => Err JaxShapeError
  | Some (lead, k) =>
      if Nat.eqb k (length v)
      then Ok (mk_ndarray lead
                 (map (fun row => dot row v)
                    (take_rows (size_of lead) k (data a))))
      else Err JaxShapeError
  end.

(** Python's [l[i]] on a list. *)
Definition index {A : Type} (l : list A) (i : nat) : result A :=
  match nth_error l i with
  | Some a => Ok a
  | None => Err IndexError
  end.

(** ** The functions of [pose.py] *)

Definition rotate_coordinates_message : string :=
  "coords must either be shape (N, 3) or (N1, N2, N3, 3)".

Definition rotate_coordinates (coords : ndarray R) (rotation : SO3.t)
  : result (ndarray R) :=
  match shape coords with
  | [_; _] => vmap (SO3.apply rotation) coords
  | [N1; N2; N3; _] =>
      flat <- reshape coords [(N1 * N2 * N3)%nat; 3%nat] ;;
      transformed <- vmap (SO3.apply rotation) flat ;;
      reshape transformed [N1; N2; N3; 3%nat]
  | _ => Err (ValueError rotate_coordinates_message)
  end.

(** [xy] is a rank-1 array, given by its entries. *)
Definition compute_shifts (coords : ndarray R) (xy : list R)
  : result (ndarray C) :=
  m <- matmul coords xy ;;
  Ok (mk_ndarray (shape m)
        (map (fun t => Cexp (Cmul (Copp Cj) (RtoC (2 * PI * t)))) (data m))).

Definition make_euler_rotation (phi theta psi : R) (convention : string)
    (intrinsic degrees : bool) : result SO3.t :=
  rotations <- mapM
      (fun axis => SO3.getattr ("from_" ++ String axis "_radians")%string)
      (list_ascii_of_string convention) ;;
  let phi := if degrees then deg2rad phi else phi in
  let theta := if degrees then deg2rad theta else theta in
  let psi := if degrees then deg2rad psi else psi in
  f1 <- index rotations 0 ;;
  let R1 := f1 phi in
  f2 <- index rotations 1 ;;
  let R2 := f2 theta in
  f3 <- index rotations 2 ;;
  let R3 := f3 psi in
  Ok (if intrinsic then R1 @@ R2 @@ R3 else R3 @@ R2 @@ R1).

(** [make_euler_rotation(phi, theta, psi)] with the default values of its
    keyword arguments: [convention="zyz"], [intrinsic=True],
    [degrees=False]. *)
Definition make_euler_rotation_default (phi theta psi : R) : result SO3.t :=
  make_euler_rotation phi theta psi "zyz" true false.

(** ** The classes of [pose.py] *)

(** The fields of the base class [Pose]. *)
Record offsets : Type := mk_offsets {
  offset_x : R;
  offset_y : R;
  offset_z : R
}.

Definition default_offsets : offsets := mk_offsets 0 0 0.

Module EulerPose.

Record t : Type := mk {
  base : offsets;
  convention : string;
  intrinsic : bool;
  inverse : bool;
  degrees : bool;
  view_phi : R;
  view_theta : R;
  view_psi : R
}.

(** [EulerPose(view_phi=a, view_theta=b, view_psi=c)]: every other field
    takes its default. *)
Definition of_angles (a b c : R) : t :=
  mk default_offsets "zyz" true false true a b c.

Definition rotation (self : t) : result SO3.t :=
  R <- make_euler_rotation (view_phi self) (view_theta self) (view_psi self)
         (convention self) (intrinsic self) (degrees self) ;;
  Ok (if inverse self then SO3.inverse R else R).

End EulerPose.

Module QuaternionPose.

Record t : Type := mk {
  base : offsets;
  inverse : bool;
  view_qw : R;
  view_qx : R;
  view_qy : R;
  view_qz : R
}.

(** [QuaternionPose(view_qw=qw, ...)]: every other field takes its
    default. *)
Definition of_quaternion (qw qx qy qz : R) : t :=
  mk default_offsets false qw qx qy qz.

Definition rotation (self : t) : SO3.t :=
  let R := SO3.from_wxyz (view_qw self) (view_qx self) (view_qy self)
             (view_qz self) in
  if inverse self then SO3.inverse R else R.

End QuaternionPose.

(** [Pose] is abstract; its concrete subclasses are the two above. *)
Module Pose.

Inductive t : Type :=
| Euler (p : EulerPose.t)
| Quaternion (p : QuaternionPose.t).

Definition base (self : t) : offsets :=
  match self with
  | Euler p => EulerPose.base p
  | Quaternion p => QuaternionPose.base p
  end.

Definition rotation (self : t) : result SO3.t :=
  match self with
  | Euler p => EulerPose.rotation p
  | Quaternion p => Ok (QuaternionPose.rotation p)
  end.

(** The translation vector, a rank-1 array of three entries. *)
Definition offset (self : t) : list R :=
  [offset_x (base self); offset_y (base self); offset_z (base self)].

Definition rotate (self : t) (coordinates : ndarray R) (real : bool)
  : result (ndarray R) :=
  R <- rotation self ;;
  let rotation := if real then SO3.inverse R else R in
  rotate_coordinates coordinates rotation.

(** [self.rotate(coordinates)]: [real] defaults to [True]. *)
Definition rotate_default (self : t) (coordinates : ndarray R)
  : result (ndarray R) :=
  rotate self coordinates true.

Definition shifts (self : t) (freqs : ndarray R) : result (ndarray C) :=
  let xy := firstn 2 (offset self) in
  compute_shifts freqs xy.

End Pose.

(** ** What the specification calls things *)

(** A Coordinate Set: a well-formed point cloud of shape (N, 3) or volume
    grid of shape (N1, N2, N3, 3). *)
Definition is_cloud (c : ndarray R) : Prop :=
  exists n, shape c = [n; 3%nat].

Definition is_grid (c : ndarray R) : Prop :=
  exists n1 n2 n3, shape c = [n1; n2; n3; 3%nat].

Definition valid_coordinates (c : ndarray R) : Prop :=
  wf_array c /\ (is_cloud c \/ is_grid c).

(** One row of three entries with the rotation applied. *)
Definition rotate_row (q : SO3.t) (row : list R) : list R :=
  match row with
  | [v1; v2; v3] =>
      let '(r1, r2, r3) := SO3.apply_vec q (v1, v2, v3) in [r1; r2; r3]
  | _ => []
  end.

(** The array of the same shape in which every 3-vector, in row-major order,
    has the rotation applied. *)
Definition rotate_each (q : SO3.t) (c : ndarray R) : ndarray R :=
  mk_ndarray (shape c)
    (concat (map (rotate_row q) (take_rows (length (data c) / 3) 3 (data c)))).

(** *** The Euler parameterization as the specification words it *)

Inductive axis : Type := X | Y | Z.

Definition axis_char (a : axis) : ascii :=
  match a with X => "x"%char | Y => "y"%char | Z => "z"%char end.

Definition axis_of_char (c : ascii) : option axis :=
  if Ascii.eqb c "x" then Some X
  else if Ascii.eqb c "y" then Some Y
  else if Ascii.eqb c "z" then Some Z
  else None.

(** The convention string that names three axes. *)
Definition convention_of (a1 a2 a3 : axis) : string :=
  String (axis_char a1) (String (axis_char a2) (String (axis_char a3) "")).

(** The elementary rotation about one axis. *)
Definition elementary (a : axis) (angle : R) : SO3.t :=
  match a with
  | X => SO3.from_x_radians angle
  | Y => SO3.from_y_radians angle
  | Z => SO3.from_z_radians angle
  end.

(** Steps 1 to 4 of the specification's algorithm: angles to radians,
    elementary rotations, composition by [intrinsic], and the inverse. *)
Definition spec_euler_composition (a1 a2 a3 : axis) (phi theta psi : R)
    (intrinsic degrees : bool) : SO3.t :=
  let to_radians := fun a => if degrees then a * PI / 180 else a in
  let R1 := elementary a1 (to_radians phi) in
  let R2 := elementary a2 (to_radians theta) in
  let R3 := elementary a3 (to_radians psi) in
  if intrinsic then R1 @@ (R2 @@ R3) else R3 @@ (R2 @@ R1).

Definition spec_euler_rotation (a1 a2 a3 : axis) (phi theta psi : R)
    (intrinsic inverse degrees : bool) : SO3.t :=
  let composed := spec_euler_composition a1 a2 a3 phi theta psi
                    intrinsic degrees in
  if inverse then SO3.inverse composed else composed.

Definition not_axis (c : ascii) : bool :=
  match axis_of_char c with None => true | Some _ => false end.

(** The constructor a character selects; only used for axis characters. *)
Definition constructor_of (c : ascii) : R -> SO3.t :=
  match axis_of_char c with
  | Some a => elementary a
  | None => SO3.from_x_radians
  end.

(** What the code does with a convention string: the error it raises, if
    any.  A character that names no axis fails the attribute lookup, and the
    first such character is the one reported; a string of fewer than three
    axis characters fails the indexing. *)
Definition convention_error (convention : string) : option exn :=
  let chars := list_ascii_of_string convention in
  match find not_axis chars with
  | Some c => Some (AttributeError ("from_" ++ String c "_radians")%string)
  | None => if (length chars <? 3)%nat then Some IndexError else None
  end.

(** The conventions the code accepts: every character names an axis and
    there are at least three characters. *)
Definition accepted_convention (convention : string) : bool :=
  let chars := list_ascii_of_string convention in
  forallb (fun c => negb (not_axis c)) chars && (3 <=? length chars)%nat.

(** *** Unit poses *)

(** A pose whose rotation is a unit quaternion: an Euler pose whose
    convention the code accepts, or a quaternion pose of unit norm. *)
Definition unit_pose (p : Pose.t) : Prop :=
  match p with
  | Pose.Euler e => convention_error (EulerPose.convention e) = None
  | Pose.Quaternion q =>
      QuaternionPose.view_qw q * QuaternionPose.view_qw q
      + QuaternionPose.view_qx q * QuaternionPose.view_qx q
      + QuaternionPose.view_qy q * QuaternionPose.view_qy q
      + QuaternionPose.view_qz q * QuaternionPose.view_qz q = 1
  end.

(** *** Error messages *)

(** [sub] occurs in [s]. *)
Fixpoint mentions (s sub : string) : bool :=
  if String.prefix sub s then true
  else match s with
       | EmptyString => false
       | String _ s' => mentions s' sub
       end.

(** How Python prints a shape, e.g. [(2, 2, 3)], [(5,)], [()]. *)
Definition nat_repr (n : nat) : string :=
  NilEmpty.string_of_uint (Nat.to_uint n).

Definition shape_repr (s : list nat) : string :=
  match s with
  | [n] => ("(" ++ nat_repr n ++ ",)")%string
  | _ => ("(" ++ String.concat ", " (map nat_repr s) ++ ")")%string
  end.

(** *** Frequency grids *)

(** The entries of a frequency grid whose last axis has length 2, laid out
    in row-major order. *)
Definition flatten_pairs (ks : list (R * R)) : list R :=
  concat (map (fun k => [fst k; snd k]) ks).

(** exp(-i 2 pi (k_x x + k_y y)) *)
Definition phase (k : R * R) (x y : R) : C :=
  Cexp (Cmul (Copp Cj) (RtoC (2 * PI * (fst k * x + snd k * y)))).

(** *** Tactics *)

(** Evaluates [rotate_each] on an array given entry by entry. *)
Ltac eval_rotate_each :=
  unfold rotate_each;
  cbn [data shape length Nat.div Nat.divmod fst take_rows firstn skipn map
       concat app rotate_row];
  unfold SO3.apply_vec; simpl.

(** Closes an equation between arrays whose entries are equal as reals. *)
Ltac ring_entries := repeat (f_equal; try ring).

(** *** Vocabulary of the further properties *)

(** The 3-vectors of a Coordinate Set, in row-major order. *)
Definition rows3 (c : ndarray R) : list (list R) :=
  take_rows (length (data c) / 3) 3 (data c).

(** The squared length of a vector given by its entries. *)
Definition sumsq (v : list R) : R :=
  fold_right (fun a s => a * a + s) 0 v.

(** The quaternion with every component negated. *)
Definition negate (q : SO3.t) : SO3.t :=
  SO3.mk (- SO3.w q) (- SO3.x q) (- SO3.y q) (- SO3.z q).

Definition Cconj (a : C) : C := (fst a, - snd a).

(** The squared modulus of a complex number. *)
Definition Cnorm2 (a : C) : R := fst a * fst a + snd a * snd a.

(** One full turn in the unit [make_euler_rotation] reads angles in. *)
Definition full_turn (degrees : bool) : R :=
  if degrees then 360 else 2 * PI.

(** * Properties *)

(** ** Rows of a row-major list *)

Section Rows.

Context {A : Type}.

Lemma take_rows_length (n m : nat) (l : list A) :
  length (take_rows n m l) = n.
Proof.
  revert l; induction n as [|n IH]; intros l; simpl; [reflexivity|].
  now rewrite IH.
Qed.

Lemma take_rows_concat (n m : nat) (l : list A) :
  length l = (n * m)%nat -> concat (take_rows n m l) = l.
Proof.
  revert l; induction n as [|n IH]; intros l Hl; simpl in *.
  - now destruct l.
  - rewrite IH.
    + apply firstn_skipn.
    + rewrite length_skipn. lia.
Qed.

Lemma take_rows_Forall (n m : nat) (l : list A) :
  length l = (n * m)%nat ->
  Forall (fun r => length r = m) (take_rows n m l).
Proof.
  revert l; induction n as [|n IH]; intros l Hl; simpl in *; constructor.
  - rewrite length_firstn. lia.
  - apply IH. rewrite length_skipn. lia.
Qed.

Lemma take_rows_of_concat (m : nat) (rows : list (list A)) :
  Forall (fun r => length r = m) rows ->
  take_rows (length rows) m (concat rows) = rows.
Proof.
  induction 1 as [|r rows Hr _ IH]; simpl; [reflexivity|].
  rewrite firstn_app, <- Hr, firstn_all, Nat.sub_diag. simpl.
  rewrite app_nil_r. f_equal.
  rewrite skipn_app, Nat.sub_diag, skipn_all. simpl.
  rewrite Hr. exact IH.
Qed.

Lemma concat_length_rows (m : nat) (rows : list (list A)) :
  Forall (fun r => length r = m) rows ->
  length (concat rows) = (length rows * m)%nat.
Proof.
  induction 1 as [|r rows Hr _ IH]; simpl; [reflexivity|].
  rewrite length_app, IH, Hr. reflexivity.
Qed.

End Rows.

Lemma rotate_row_length (q : SO3.t) (row : list R) :
  length row = 3%nat -> length (rotate_row q row) = 3%nat.
Proof.
  destruct row as [|a [|b [|c [|d r]]]]; simpl; try discriminate.
  intros _. unfold SO3.apply_vec. reflexivity.
Qed.

Lemma rotate_rows_Forall (q : SO3.t) (rows : list (list R)) :
  Forall (fun r => length r = 3%nat) rows ->
  Forall (fun r => length r = 3%nat) (map (rotate_row q) rows).
Proof.
  induction 1; simpl; constructor; auto using rotate_row_length.
Qed.

(** ** The batched map of [apply] *)

Lemma apply_row (q : SO3.t) (row : list R) :
  length row = 3%nat ->
  SO3.apply q (mk_ndarray [3%nat] row)
  = Ok (mk_ndarray [3%nat] (rotate_row q row)).
Proof.
  destruct row as [|a [|b [|c [|d r]]]]; simpl; try discriminate.
  intros _. unfold SO3.apply, SO3.apply_vec. reflexivity.
Qed.

Lemma mapM_apply_rows (q : SO3.t) (rows : list (list R)) :
  Forall (fun r => length r = 3%nat) rows ->
  mapM (SO3.apply q) (map (mk_ndarray [3%nat]) rows)
  = Ok (map (fun r => mk_ndarray [3%nat] (rotate_row q r)) rows).
Proof.
  induction 1 as [|r rows Hr _ IH]; simpl; [reflexivity|].
  rewrite (apply_row q r Hr). simpl. rewrite IH. reflexivity.
Qed.

Lemma vmap_apply_cloud (q : SO3.t) (a : ndarray R) (n : nat) :
  shape a = [n; 3%nat] ->
  wf_array a ->
  vmap (SO3.apply q) a
  = Ok (mk_ndarray [n; 3%nat]
          (concat (map (rotate_row q) (take_rows n 3 (data a))))).
Proof.
  intros Hs Hwf. unfold wf_array in Hwf. rewrite Hs in Hwf. simpl in Hwf.
  unfold vmap. rewrite Hs.
  replace (zeros [3%nat]) with (mk_ndarray [3%nat] [0; 0; 0]) by reflexivity.
  rewrite apply_row by reflexivity.
  cbn [bind shape]. unfold unstack.
  change (size_of [3%nat]) with 3%nat.
  rewrite mapM_apply_rows by (apply take_rows_Forall; lia).
  cbn [bind]. rewrite map_map. reflexivity.
Qed.

Lemma size_cloud_rows (a : ndarray R) (n : nat) :
  shape a = [n; 3%nat] -> wf_array a -> (length (data a) / 3 = n)%nat.
Proof.
  intros Hs Hwf. unfold wf_array in Hwf. rewrite Hs in Hwf. simpl in Hwf.
  rewrite Hwf. apply Nat.div_mul. discriminate.
Qed.

Lemma size_grid_rows (a : ndarray R) (n1 n2 n3 : nat) :
  shape a = [n1; n2; n3; 3%nat] -> wf_array a ->
  (length (data a) / 3 = n1 * n2 * n3)%nat.
Proof.
  intros Hs Hwf. unfold wf_array in Hwf. rewrite Hs in Hwf. simpl in Hwf.
  replace (length (data a)) with ((n1 * n2 * n3) * 3)%nat by lia.
  apply Nat.div_mul. discriminate.
Qed.

Lemma size_of_grid (n1 n2 n3 : nat) :
  size_of [(n1 * n2 * n3)%nat; 3%nat] = size_of [n1; n2; n3; 3%nat].
Proof. simpl. lia. Qed.

(** On a Coordinate Set [rotate_coordinates] returns, and returns the array
    of the same shape with the rotation applied to every 3-vector. *)
Lemma rotate_coordinates_valid (q : SO3.t) (c : ndarray R) :
  valid_coordinates c -> rotate_coordinates c q = Ok (rotate_each q c).
Proof.
  intros [Hwf [[n Hs] | [n1 [n2 [n3 Hs]]]]]; unfold rotate_coordinates, rotate_each.
  - rewrite (size_cloud_rows c n Hs Hwf), Hs.
    rewrite (vmap_apply_cloud q c n Hs Hwf). reflexivity.
  - rewrite (size_grid_rows c n1 n2 n3 Hs Hwf), Hs.
    assert (Hflat : reshape c [(n1 * n2 * n3)%nat; 3%nat]
                    = Ok (mk_ndarray [(n1 * n2 * n3)%nat; 3%nat] (data c))).
    { unfold reshape. rewrite Hs, size_of_grid, Nat.eqb_refl. reflexivity. }
    rewrite Hflat. cbn [bind].
    rewrite (vmap_apply_cloud q _ (n1 * n2 * n3)%nat); cycle 1.
    + reflexivity.
    + unfold wf_array in *. cbn [shape data]. rewrite size_of_grid, <- Hs.
      exact Hwf.
    + cbn [bind data]. unfold reshape. cbn [shape].
      rewrite size_of_grid, Nat.eqb_refl. reflexivity.
Qed.

(** ** Quaternion algebra of the rotation library *)

Lemma SO3_eq (a b : SO3.t) :
  SO3.w a = SO3.w b -> SO3.x a = SO3.x b ->
  SO3.y a = SO3.y b -> SO3.z a = SO3.z b -> a = b.
Proof. destruct a, b; simpl; intros; subst; reflexivity. Qed.

Lemma multiply_assoc (a b c : SO3.t) : a @@ (b @@ c) = a @@ b @@ c.
Proof. apply SO3_eq; simpl; ring. Qed.

Lemma inverse_multiply (a b : SO3.t) :
  SO3.inverse (a @@ b) = SO3.inverse b @@ SO3.inverse a.
Proof. apply SO3_eq; simpl; ring. Qed.

Lemma inverse_involutive (a : SO3.t) : SO3.inverse (SO3.inverse a) = a.
Proof. destruct a. apply SO3_eq; simpl; ring. Qed.

Lemma norm2_multiply (a b : SO3.t) :
  SO3.norm2 (a @@ b) = SO3.norm2 a * SO3.norm2 b.
Proof. unfold SO3.norm2; simpl; ring. Qed.

Lemma norm2_inverse (a : SO3.t) : SO3.norm2 (SO3.inverse a) = SO3.norm2 a.
Proof. unfold SO3.norm2; simpl; ring. Qed.

Lemma cos2_sin2 (t : R) : cos t * cos t + sin t * sin t = 1.
Proof. generalize (sin2_cos2 t). unfold Rsqr. lra. Qed.

Lemma norm2_from_x (t : R) : SO3.norm2 (SO3.from_x_radians t) = 1.
Proof. unfold SO3.norm2; simpl. generalize (cos2_sin2 (t / 2)). lra. Qed.

Lemma norm2_from_y (t : R) : SO3.norm2 (SO3.from_y_radians t) = 1.
Proof. unfold SO3.norm2; simpl. generalize (cos2_sin2 (t / 2)). lra. Qed.

Lemma norm2_from_z (t : R) : SO3.norm2 (SO3.from_z_radians t) = 1.
Proof. unfold SO3.norm2; simpl. generalize (cos2_sin2 (t / 2)). lra. Qed.

(** Composition of operators is composition of their actions. *)
Lemma apply_vec_multiply (a b : SO3.t) (v : R * R * R) :
  SO3.apply_vec (a @@ b) v = SO3.apply_vec a (SO3.apply_vec b v).
Proof.
  destruct v as [[v1 v2] v3]. unfold SO3.apply_vec.
  f_equal; [f_equal|]; simpl; ring.
Qed.

(** Applying an operator and then its inverse scales by the square of the
    squared norm of the quaternion. *)
Lemma apply_vec_inverse_l (a : SO3.t) (v1 v2 v3 : R) :
  SO3.apply_vec (SO3.inverse a) (SO3.apply_vec a (v1, v2, v3))
  = (SO3.norm2 a * SO3.norm2 a * v1,
     SO3.norm2 a * SO3.norm2 a * v2,
     SO3.norm2 a * SO3.norm2 a * v3).
Proof.
  unfold SO3.apply_vec, SO3.norm2.
  f_equal; [f_equal|]; simpl; ring.
Qed.

Lemma apply_vec_inverse_r (a : SO3.t) (v1 v2 v3 : R) :
  SO3.apply_vec a (SO3.apply_vec (SO3.inverse a) (v1, v2, v3))
  = (SO3.norm2 a * SO3.norm2 a * v1,
     SO3.norm2 a * SO3.norm2 a * v2,
     SO3.norm2 a * SO3.norm2 a * v3).
Proof.
  unfold SO3.apply_vec, SO3.norm2.
  f_equal; [f_equal|]; simpl; ring.
Qed.

(** The action of a quaternion on a vector conserves the squared length up
    to the same factor; a unit quaternion conserves it. *)
Lemma apply_vec_norm (a : SO3.t) (v1 v2 v3 : R) :
  let '(r1, r2, r3) := SO3.apply_vec a (v1, v2, v3) in
  r1 * r1 + r2 * r2 + r3 * r3
  = SO3.norm2 a * SO3.norm2 a * (v1 * v1 + v2 * v2 + v3 * v3).
Proof. unfold SO3.apply_vec, SO3.norm2; simpl; ring. Qed.

(** ** The Euler parameterization *)

Lemma getattr_axis (a : axis) :
  SO3.getattr ("from_" ++ String (axis_char a) "_radians")%string
  = Ok (elementary a).
Proof. destruct a; reflexivity. Qed.

Lemma getattr_char (c : ascii) :
  SO3.getattr ("from_" ++ String c "_radians")%string
  = match axis_of_char c with
    | Some a => Ok (elementary a)
    | None => Err (AttributeError ("from_" ++ String c "_radians")%string)
    end.
Proof.
  unfold SO3.getattr, axis_of_char. cbn [append String.eqb].
  rewrite !Ascii.eqb_refl.
  destruct (Ascii.eqb c "x") eqn:Hx.
  { apply Ascii.eqb_eq in Hx. subst c. reflexivity. }
  destruct (Ascii.eqb c "y") eqn:Hy.
  { apply Ascii.eqb_eq in Hy. subst c. reflexivity. }
  destruct (Ascii.eqb c "z") eqn:Hz.
  { apply Ascii.eqb_eq in Hz. subst c. reflexivity. }
  reflexivity.
Qed.

Lemma deg2rad_spec (a : R) : deg2rad a = a * PI / 180.
Proof. unfold deg2rad. field. Qed.

Lemma make_euler_rotation_axes (a1 a2 a3 : axis) (phi theta psi : R)
    (intrinsic degrees : bool) :
  make_euler_rotation phi theta psi (convention_of a1 a2 a3) intrinsic degrees
  = Ok (spec_euler_composition a1 a2 a3 phi theta psi intrinsic degrees).
Proof.
  unfold make_euler_rotation, convention_of, spec_euler_composition.
  cbn [list_ascii_of_string mapM].
  rewrite !getattr_axis. cbn [bind index nth_error].
  rewrite <- !deg2rad_spec, !multiply_assoc.
  destruct intrinsic, degrees; reflexivity.
Qed.

Lemma mapM_getattr_axes (axes : list axis) :
  mapM (fun axis => SO3.getattr ("from_" ++ String axis "_radians")%string)
    (map axis_char axes)
  = Ok (map elementary axes).
Proof.
  induction axes as [|a axes IH]; [reflexivity|].
  cbn [map mapM]. rewrite getattr_axis, IH. reflexivity.
Qed.

(** Characters after the third are looked up and then ignored: a longer
    convention over x, y, z gives the rotation of its first three
    characters. *)
Lemma make_euler_rotation_long (a1 a2 a3 : axis) (more : list axis)
    (phi theta psi : R) (intrinsic degrees : bool) :
  make_euler_rotation phi theta psi
    (string_of_list_ascii (map axis_char (a1 :: a2 :: a3 :: more)))
    intrinsic degrees
  = Ok (spec_euler_composition a1 a2 a3 phi theta psi intrinsic degrees).
Proof.
  unfold make_euler_rotation, spec_euler_composition.
  rewrite list_ascii_of_string_of_list_ascii, mapM_getattr_axes.
  cbn [bind map index nth_error].
  rewrite <- !deg2rad_spec, !multiply_assoc.
  destruct intrinsic, degrees; reflexivity.
Qed.

Lemma mapM_getattr (chars : list ascii) :
  mapM (fun axis => SO3.getattr ("from_" ++ String axis "_radians")%string)
    chars
  = match find not_axis chars with
    | Some c => Err (AttributeError ("from_" ++ String c "_radians")%string)
    | None => Ok (map constructor_of chars)
    end.
Proof.
  induction chars as [|c chars IH]; [reflexivity|].
  cbn [mapM find map]. rewrite getattr_char, IH.
  destruct (axis_of_char c) as [a|] eqn:Ha.
  - assert (Hn : not_axis c = false) by (unfold not_axis; now rewrite Ha).
    assert (Hc : constructor_of c = elementary a)
      by (unfold constructor_of; now rewrite Ha).
    rewrite Hn, Hc. cbn [bind].
    destruct (find not_axis chars); reflexivity.
  - assert (Hn : not_axis c = true) by (unfold not_axis; now rewrite Ha).
    rewrite Hn. reflexivity.
Qed.

(** The outcome of [make_euler_rotation] on any convention string. *)
Lemma make_euler_rotation_outcome (phi theta psi : R) (convention : string)
    (intrinsic degrees : bool) :
  match convention_error convention with
  | Some e =>
      make_euler_rotation phi theta psi convention intrinsic degrees = Err e
  | None =>
      is_ok (make_euler_rotation phi theta psi convention intrinsic degrees)
      = true
  end.
Proof.
  unfold convention_error, make_euler_rotation.
  rewrite mapM_getattr.
  destruct (find not_axis (list_ascii_of_string convention)); [reflexivity|].
  destruct (list_ascii_of_string convention) as [|c1 [|c2 [|c3 chars]]];
    reflexivity.
Qed.

(** ** Claims about the Euler and quaternion parameterizations *)

(** C1.  For all angles and flags and every convention that names three
    axes, [make_euler_rotation] returns the composition of the three
    elementary rotations about the axes named by the convention, by the
    angles phi, theta and psi (converted to radians first when [degrees] is
    set), as R1 R2 R3 when [intrinsic] is set and as R3 R2 R1 otherwise; and
    [EulerPose.rotation] returns the inverse of that composition when
    [inverse] is set and the composition itself otherwise. *)
Theorem euler_rotation_composition (p : EulerPose.t) (a1 a2 a3 : axis) :
  EulerPose.convention p = convention_of a1 a2 a3 ->
  make_euler_rotation (EulerPose.view_phi p) (EulerPose.view_theta p)
    (EulerPose.view_psi p) (EulerPose.convention p) (EulerPose.intrinsic p)
    (EulerPose.degrees p)
  = Ok (spec_euler_composition a1 a2 a3 (EulerPose.view_phi p)
          (EulerPose.view_theta p) (EulerPose.view_psi p)
          (EulerPose.intrinsic p) (EulerPose.degrees p))
  /\ EulerPose.rotation p
     = Ok (spec_euler_rotation a1 a2 a3 (EulerPose.view_phi p)
             (EulerPose.view_theta p) (EulerPose.view_psi p)
             (EulerPose.intrinsic p) (EulerPose.inverse p)
             (EulerPose.degrees p)).
Proof.
  intros Hc. unfold EulerPose.rotation, spec_euler_rotation.
  rewrite Hc, make_euler_rotation_axes. split; reflexivity.
Qed.

Lemma euler_rotation_composition_witness :
  EulerPose.convention (EulerPose.of_angles 30 60 90) = convention_of Z Y Z
  /\ EulerPose.rotation (EulerPose.of_angles 30 60 90)
     = Ok (spec_euler_rotation Z Y Z 30 60 90 true false true).
Proof.
  split; [reflexivity|].
  apply (euler_rotation_composition (EulerPose.of_angles 30 60 90) Z Y Z).
  reflexivity.
Defined.

(** The composition acts on a vector as its factors do, the rightmost
    first. *)
Lemma composition_acts_in_order (R1 R2 R3 : SO3.t) (v : R * R * R) :
  SO3.apply_vec (R1 @@ R2 @@ R3) v
  = SO3.apply_vec R1 (SO3.apply_vec R2 (SO3.apply_vec R3 v)).
Proof. now rewrite !apply_vec_multiply. Qed.

(** C5.  [QuaternionPose.rotation] builds the operator of the quaternion
    whose scalar part is [view_qw] and whose vector part is
    ([view_qx], [view_qy], [view_qz]), and returns its inverse when
    [inverse] is set, the operator itself otherwise.  The operator acts on a
    vector by the rotation matrix of that quaternion. *)
Theorem quaternion_rotation_wxyz (p : QuaternionPose.t) :
  let qw := QuaternionPose.view_qw p in
  let qx := QuaternionPose.view_qx p in
  let qy := QuaternionPose.view_qy p in
  let qz := QuaternionPose.view_qz p in
  let q := SO3.from_wxyz qw qx qy qz in
  QuaternionPose.rotation p
  = (if QuaternionPose.inverse p then SO3.inverse q else q)
  /\ (SO3.w q, SO3.x q, SO3.y q, SO3.z q) = (qw, qx, qy, qz)
  /\ forall v1 v2 v3 : R,
       SO3.apply_vec q (v1, v2, v3)
       = ((qw * qw + qx * qx - qy * qy - qz * qz) * v1
          + 2 * (qx * qy - qw * qz) * v2 + 2 * (qx * qz + qw * qy) * v3,
          2 * (qx * qy + qw * qz) * v1
          + (qw * qw - qx * qx + qy * qy - qz * qz) * v2
          + 2 * (qy * qz - qw * qx) * v3,
          2 * (qx * qz - qw * qy) * v1 + 2 * (qy * qz + qw * qx) * v2
          + (qw * qw - qx * qx - qy * qy + qz * qz) * v3).
Proof.
  cbv zeta. split; [reflexivity|]. split; [reflexivity|].
  intros v1 v2 v3. unfold SO3.apply_vec, SO3.from_wxyz.
  f_equal; [f_equal|]; simpl; ring.
Qed.

(** ** Claims about [Pose.rotate] and [rotate_coordinates] *)

(** C2.  For every pose with rotation R and every Coordinate Set,
    [rotate] applies the inverse of R to every 3-vector when [real] is true,
    which is the default, and R itself when [real] is false; the shape is
    kept. *)
Theorem pose_rotate_direction (p : Pose.t) (R0 : SO3.t) (c : ndarray R)
    (real : bool) :
  Pose.rotation p = Ok R0 ->
  valid_coordinates c ->
  Pose.rotate p c real
  = rotate_coordinates c (if real then SO3.inverse R0 else R0)
  /\ Pose.rotate p c real
     = Ok (rotate_each (if real then SO3.inverse R0 else R0) c)
  /\ Pose.rotate_default p c = Ok (rotate_each (SO3.inverse R0) c).
Proof.
  intros HR Hc. unfold Pose.rotate_default, Pose.rotate. rewrite HR.
  cbn [bind]. rewrite !rotate_coordinates_valid by assumption.
  repeat split.
Qed.

Lemma cloud_123_valid : valid_coordinates (mk_ndarray [1%nat; 3%nat] [1; 2; 3]).
Proof. split; [reflexivity|]. left. exists 1%nat. reflexivity. Defined.

Lemma pose_rotate_direction_witness :
  let p := Pose.Quaternion (QuaternionPose.of_quaternion 0 1 0 0) in
  let c := mk_ndarray [1%nat; 3%nat] [1; 2; 3] in
  Pose.rotation p = Ok (SO3.mk 0 1 0 0)
  /\ valid_coordinates c
  /\ Pose.rotate p c true = Ok (rotate_each (SO3.inverse (SO3.mk 0 1 0 0)) c).
Proof.
  cbv zeta. split; [reflexivity|]. split; [exact cloud_123_valid|].
  apply (pose_rotate_direction
           (Pose.Quaternion (QuaternionPose.of_quaternion 0 1 0 0))
           (SO3.mk 0 1 0 0) (mk_ndarray [1%nat; 3%nat] [1; 2; 3]) true).
  - reflexivity.
  - exact cloud_123_valid.
Defined.

(** C6.  For every rotation and every well-formed volume grid of shape
    (N1, N2, N3, 3), rotating the grid and flattening the result to
    (N1*N2*N3, 3) gives, entry for entry, what flattening the grid and
    rotating the flat list gives; both computations return. *)
Theorem grid_rotation_commutes_with_flattening (q : SO3.t) (g : ndarray R)
    (n1 n2 n3 : nat) :
  wf_array g ->
  shape g = [n1; n2; n3; 3%nat] ->
  let flat_shape := [(n1 * n2 * n3)%nat; 3%nat] in
  (t <- rotate_coordinates g q ;; reshape t flat_shape)
  = (f <- reshape g flat_shape ;; rotate_coordinates f q)
  /\ (t <- rotate_coordinates g q ;; reshape t flat_shape)
     = Ok (mk_ndarray flat_shape (data (rotate_each q g))).
Proof.
  intros Hwf Hs flat_shape. subst flat_shape.
  assert (Hv : valid_coordinates g).
  { split; [exact Hwf|]. right. now exists n1, n2, n3. }
  assert (Hflat : reshape g [(n1 * n2 * n3)%nat; 3%nat]
                  = Ok (mk_ndarray [(n1 * n2 * n3)%nat; 3%nat] (data g))).
  { unfold reshape. rewrite Hs, size_of_grid, Nat.eqb_refl. reflexivity. }
  assert (Hvf : valid_coordinates
                  (mk_ndarray [(n1 * n2 * n3)%nat; 3%nat] (data g))).
  { split.
    - unfold wf_array in *. cbn [shape data]. rewrite size_of_grid, <- Hs.
      exact Hwf.
    - left. now exists (n1 * n2 * n3)%nat. }
  rewrite Hflat, (rotate_coordinates_valid q g Hv). cbn [bind].
  rewrite (rotate_coordinates_valid q _ Hvf).
  unfold reshape, rotate_each. cbn [shape data].
  rewrite Hs, size_of_grid, Nat.eqb_refl. split; reflexivity.
Qed.

Lemma grid_rotation_commutes_with_flattening_witness :
  let g := mk_ndarray [1%nat; 1%nat; 2%nat; 3%nat] [1; 0; 0; 0; 1; 0] in
  let q := SO3.from_z_radians PI in
  wf_array g
  /\ shape g = [1%nat; 1%nat; 2%nat; 3%nat]
  /\ (t <- rotate_coordinates g q ;; reshape t [2%nat; 3%nat])
     = (f <- reshape g [2%nat; 3%nat] ;; rotate_coordinates f q).
Proof.
  cbv zeta. split; [reflexivity|]. split; [reflexivity|].
  apply (grid_rotation_commutes_with_flattening (SO3.from_z_radians PI)
           (mk_ndarray [1%nat; 1%nat; 2%nat; 3%nat] [1; 0; 0; 0; 1; 0])
           1 1 2); reflexivity.
Defined.

(** ** The round trip through a rotation and its inverse *)

Lemma valid_coordinates_rows (c : ndarray R) :
  valid_coordinates c -> length (data c) = (length (data c) / 3 * 3)%nat.
Proof.
  intros [Hwf [[n Hs] | [n1 [n2 [n3 Hs]]]]].
  - rewrite (size_cloud_rows c n Hs Hwf).
    unfold wf_array in Hwf. rewrite Hs in Hwf. simpl in Hwf. lia.
  - rewrite (size_grid_rows c n1 n2 n3 Hs Hwf).
    unfold wf_array in Hwf. rewrite Hs in Hwf. simpl in Hwf. lia.
Qed.

Lemma rotate_each_data_length (q : SO3.t) (c : ndarray R) :
  valid_coordinates c -> length (data (rotate_each q c)) = length (data c).
Proof.
  intros Hv. pose proof (valid_coordinates_rows c Hv) as Hl.
  unfold rotate_each. cbn [data].
  rewrite (concat_length_rows 3).
  - rewrite length_map, take_rows_length. lia.
  - apply rotate_rows_Forall, take_rows_Forall. exact Hl.
Qed.

Lemma rotate_each_valid (q : SO3.t) (c : ndarray R) :
  valid_coordinates c -> valid_coordinates (rotate_each q c).
Proof.
  intros Hv. pose proof (rotate_each_data_length q c Hv) as Hl.
  destruct Hv as [Hwf Hshape]. split.
  - unfold wf_array in *. rewrite Hl. exact Hwf.
  - exact Hshape.
Qed.

Lemma rotate_row_scaled (a b : SO3.t) (k : R) (row : list R) :
  (forall v1 v2 v3,
      SO3.apply_vec a (SO3.apply_vec b (v1, v2, v3))
      = (k * v1, k * v2, k * v3)) ->
  length row = 3%nat ->
  rotate_row a (rotate_row b row) = map (Rmult k) row.
Proof.
  intros H Hl.
  destruct row as [|v1 [|v2 [|v3 [|v4 r]]]]; try discriminate.
  unfold rotate_row.
  destruct (SO3.apply_vec b (v1, v2, v3)) as [[r1 r2] r3] eqn:Hb.
  specialize (H v1 v2 v3). rewrite Hb in H. rewrite H. reflexivity.
Qed.

(** Rotating every row by [b] and then by [a], when the two together scale
    every vector by [k], scales every entry by [k]. *)
Lemma rotate_each_scaled (a b : SO3.t) (k : R) (c : ndarray R) :
  (forall v1 v2 v3,
      SO3.apply_vec a (SO3.apply_vec b (v1, v2, v3))
      = (k * v1, k * v2, k * v3)) ->
  valid_coordinates c ->
  rotate_each a (rotate_each b c)
  = mk_ndarray (shape c) (map (Rmult k) (data c)).
Proof.
  intros H Hv. pose proof (valid_coordinates_rows c Hv) as Hl.
  pose proof (rotate_each_data_length b c Hv) as Hlb.
  unfold rotate_each at 1. rewrite Hlb.
  unfold rotate_each. cbn [shape data]. f_equal.
  set (n := (length (data c) / 3)%nat) in *.
  pose proof (take_rows_Forall n 3 (data c) Hl) as Hrows.
  replace n with (length (map (rotate_row b) (take_rows n 3 (data c)))) at 1
    by now rewrite length_map, take_rows_length.
  rewrite take_rows_of_concat by now apply rotate_rows_Forall.
  rewrite map_map.
  rewrite <- (take_rows_concat n 3 (data c) Hl) at 2.
  rewrite concat_map. f_equal.
  apply map_ext_Forall.
  revert Hrows. apply Forall_impl. intros row Hrow.
  now apply rotate_row_scaled.
Qed.

Lemma map_Rmult_1 (l : list R) : map (Rmult 1) l = l.
Proof.
  induction l as [|a l IH]; simpl; [reflexivity|].
  rewrite IH. f_equal. ring.
Qed.

Lemma norm2_constructor_of (c : ascii) (t : R) :
  SO3.norm2 (constructor_of c t) = 1.
Proof.
  unfold constructor_of.
  destruct (axis_of_char c) as [[| |]|]; simpl;
    auto using norm2_from_x, norm2_from_y, norm2_from_z.
Qed.

Lemma make_euler_rotation_unit (phi theta psi : R) (convention : string)
    (intrinsic degrees : bool) :
  convention_error convention = None ->
  exists R0,
    make_euler_rotation phi theta psi convention intrinsic degrees = Ok R0
    /\ SO3.norm2 R0 = 1.
Proof.
  unfold convention_error, make_euler_rotation.
  rewrite mapM_getattr.
  destruct (find not_axis (list_ascii_of_string convention));
    [discriminate|].
  destruct (list_ascii_of_string convention) as [|c1 [|c2 [|c3 chars]]];
    try discriminate.
  intros _. cbn [bind map index nth_error].
  eexists. split; [reflexivity|].
  destruct intrinsic; rewrite !norm2_multiply, !norm2_constructor_of; ring.
Qed.

Lemma unit_pose_rotation (p : Pose.t) :
  unit_pose p -> exists R0, Pose.rotation p = Ok R0 /\ SO3.norm2 R0 = 1.
Proof.
  destruct p as [e | q]; simpl; intros H.
  - unfold EulerPose.rotation.
    destruct (make_euler_rotation_unit (EulerPose.view_phi e)
                (EulerPose.view_theta e) (EulerPose.view_psi e)
                (EulerPose.convention e) (EulerPose.intrinsic e)
                (EulerPose.degrees e) H) as [R0 [HR Hn]].
    rewrite HR. cbn [bind]. eexists. split; [reflexivity|].
    destruct (EulerPose.inverse e); [rewrite norm2_inverse|]; exact Hn.
  - eexists. split; [reflexivity|].
    unfold QuaternionPose.rotation.
    destruct (QuaternionPose.inverse q); [rewrite norm2_inverse|];
      unfold SO3.norm2, SO3.from_wxyz; simpl; exact H.
Qed.

(** Rotating in real space and then in Fourier space multiplies every entry
    by the square of the squared norm of the pose's quaternion. *)
Lemma rotate_round_trip_scaled (p : Pose.t) (R0 : SO3.t) (c : ndarray R) :
  Pose.rotation p = Ok R0 ->
  valid_coordinates c ->
  (t <- Pose.rotate p c true ;; Pose.rotate p t false)
  = Ok (mk_ndarray (shape c)
          (map (Rmult (SO3.norm2 R0 * SO3.norm2 R0)) (data c))).
Proof.
  intros HR Hv. unfold Pose.rotate. rewrite HR. cbn [bind].
  rewrite (rotate_coordinates_valid _ c Hv). cbn [bind].
  rewrite rotate_coordinates_valid by now apply rotate_each_valid.
  f_equal. apply rotate_each_scaled; [|exact Hv].
  intros v1 v2 v3. apply apply_vec_inverse_r.
Qed.

(** C8, as amended.  For every pose whose rotation is a unit quaternion and
    every Coordinate Set, rotating in real space (the inverse rotation) and
    then in Fourier space (the rotation itself) returns the Coordinate Set,
    and so does the opposite order. *)
Theorem rotate_round_trip (p : Pose.t) (c : ndarray R) :
  unit_pose p ->
  valid_coordinates c ->
  (exists t, Pose.rotate p c true = Ok t /\ Pose.rotate p t false = Ok c)
  /\ (exists u, Pose.rotate p c false = Ok u /\ Pose.rotate p u true = Ok c).
Proof.
  intros Hp Hv. destruct (unit_pose_rotation p Hp) as [R0 [HR Hn]].
  assert (Hc : mk_ndarray (shape c) (map (Rmult 1) (data c)) = c).
  { rewrite map_Rmult_1. now destruct c. }
  unfold Pose.rotate. rewrite HR. cbn [bind]. split.
  - exists (rotate_each (SO3.inverse R0) c). split.
    + now apply rotate_coordinates_valid.
    + rewrite rotate_coordinates_valid by now apply rotate_each_valid.
      f_equal. rewrite <- Hc at 2. apply rotate_each_scaled; [|exact Hv].
      intros v1 v2 v3. rewrite apply_vec_inverse_r, Hn.
      f_equal; [f_equal|]; ring.
  - exists (rotate_each R0 c). split.
    + now apply rotate_coordinates_valid.
    + rewrite rotate_coordinates_valid by now apply rotate_each_valid.
      f_equal. rewrite <- Hc at 2. apply rotate_each_scaled; [|exact Hv].
      intros v1 v2 v3. rewrite apply_vec_inverse_l, Hn.
      f_equal; [f_equal|]; ring.
Qed.

Lemma rotate_round_trip_witness :
  let p := Pose.Euler (EulerPose.of_angles 30 60 90) in
  let c := mk_ndarray [1%nat; 3%nat] [1; 2; 3] in
  unit_pose p /\ valid_coordinates c
  /\ exists t, Pose.rotate p c true = Ok t /\ Pose.rotate p t false = Ok c.
Proof.
  cbv zeta. split; [reflexivity|]. split; [exact cloud_123_valid|].
  apply (rotate_round_trip (Pose.Euler (EulerPose.of_angles 30 60 90))
           (mk_ndarray [1%nat; 3%nat] [1; 2; 3])).
  - reflexivity.
  - exact cloud_123_valid.
Defined.

Lemma cloud_100_valid : valid_coordinates (mk_ndarray [1%nat; 3%nat] [1; 0; 0]).
Proof. split; [reflexivity|]. left. exists 1%nat. reflexivity. Qed.

Lemma cloud_400_valid : valid_coordinates (mk_ndarray [1%nat; 3%nat] [4; 0; 0]).
Proof. split; [reflexivity|]. left. exists 1%nat. reflexivity. Qed.

(** C8 fails for a quaternion pose that is not of unit norm:
    [QuaternionPose(view_qw=2.0)] sends the point (1, 0, 0) to (4, 0, 0) in
    real space, and that to (16, 0, 0) in Fourier space. *)
Lemma rotate_round_trip_counterexample :
  let p := Pose.Quaternion (QuaternionPose.of_quaternion 2 0 0 0) in
  let c := mk_ndarray [1%nat; 3%nat] [1; 0; 0] in
  let t := mk_ndarray [1%nat; 3%nat] [4; 0; 0] in
  let u := mk_ndarray [1%nat; 3%nat] [16; 0; 0] in
  valid_coordinates c
  /\ Pose.rotate p c true = Ok t
  /\ Pose.rotate p t false = Ok u
  /\ Pose.rotate p t false <> Ok c.
Proof.
  cbv zeta.
  assert (Hu : Pose.rotate
                 (Pose.Quaternion (QuaternionPose.of_quaternion 2 0 0 0))
                 (mk_ndarray [1%nat; 3%nat] [4; 0; 0]) false
               = Ok (mk_ndarray [1%nat; 3%nat] [16; 0; 0])).
  { unfold Pose.rotate. cbn [Pose.rotation bind].
    rewrite (rotate_coordinates_valid _ _ cloud_400_valid).
    eval_rotate_each. ring_entries. }
  split; [exact cloud_100_valid|]. split; [|split].
  - unfold Pose.rotate. cbn [Pose.rotation bind].
    rewrite (rotate_coordinates_valid _ _ cloud_100_valid).
    eval_rotate_each. ring_entries.
  - exact Hu.
  - rewrite Hu. intros H. injection H as H. lra.
Qed.

(** ** Shape rejection *)

(** C3, as amended.  For every input array whose rank is neither 2 nor 4, in
    particular any rank-3 array, [rotate_coordinates] raises a [ValueError]
    with one fixed message, which names the two accepted forms (N, 3) and
    (N1, N2, N3, 3); no output is produced. *)
Theorem rotate_coordinates_rejects_rank (c : ndarray R) (q : SO3.t) :
  length (shape c) <> 2%nat ->
  length (shape c) <> 4%nat ->
  rotate_coordinates c q = Err (ValueError rotate_coordinates_message)
  /\ mentions rotate_coordinates_message "(N, 3)" = true
  /\ mentions rotate_coordinates_message "(N1, N2, N3, 3)" = true.
Proof.
  intros H2 H4. split; [|split; reflexivity].
  unfold rotate_coordinates.
  destruct (shape c) as [|n1 [|n2 [|n3 [|n4 [|n5 s]]]]]; simpl in *;
    try reflexivity; contradiction.
Qed.

Lemma rotate_coordinates_rejects_rank_witness :
  length (shape (zeros [2%nat; 2%nat; 3%nat])) <> 2%nat
  /\ length (shape (zeros [2%nat; 2%nat; 3%nat])) <> 4%nat
  /\ rotate_coordinates (zeros [2%nat; 2%nat; 3%nat]) SO3.identity
     = Err (ValueError rotate_coordinates_message).
Proof.
  split; [simpl; lia|]. split; [simpl; lia|].
  apply (rotate_coordinates_rejects_rank (zeros [2%nat; 2%nat; 3%nat])
           SO3.identity); simpl; lia.
Defined.

(** C3 fails as stated: the message raised for a rank-3 array of shape
    (2, 2, 3) does not contain that shape, and it is the message raised for
    an array of any other rejected rank. *)
Lemma rotate_coordinates_message_counterexample :
  let c := zeros [2%nat; 2%nat; 3%nat] in
  wf_array c
  /\ shape_repr (shape c) = "(2, 2, 3)"%string
  /\ rotate_coordinates c SO3.identity
     = Err (ValueError rotate_coordinates_message)
  /\ mentions rotate_coordinates_message (shape_repr (shape c)) = false
  /\ rotate_coordinates (zeros [7%nat]) SO3.identity
     = rotate_coordinates c SO3.identity.
Proof. cbv zeta. repeat split. Qed.

(** A rank-2 array whose rows are not 3-vectors passes the rank test of
    [rotate_coordinates]; it is the shape assertion of the library's [apply]
    that stops it. *)
Remark rotate_coordinates_four_columns (c : ndarray R) (q : SO3.t) (n : nat) :
  shape c = [n; 4%nat] -> rotate_coordinates c q = Err AssertionError.
Proof.
  intros Hs. unfold rotate_coordinates, vmap. rewrite Hs. reflexivity.
Qed.

(** ** The translation phase encoder *)

Lemma split_last_app (lead : list nat) (k : nat) :
  split_last (lead ++ [k]) = Some (lead, k).
Proof.
  induction lead as [|n lead IH]; [reflexivity|].
  simpl. rewrite IH. destruct (lead ++ [k]) eqn:E; [|reflexivity].
  now destruct lead.
Qed.

Lemma size_of_app (s1 s2 : list nat) :
  size_of (s1 ++ s2) = (size_of s1 * size_of s2)%nat.
Proof.
  induction s1 as [|n s1 IH]; simpl; [lia|]. rewrite IH. lia.
Qed.

Lemma take_rows_flatten_pairs (ks : list (R * R)) :
  take_rows (length ks) 2 (flatten_pairs ks)
  = map (fun k => [fst k; snd k]) ks.
Proof.
  unfold flatten_pairs.
  rewrite <- (length_map (fun k : R * R => [fst k; snd k]) ks) at 1.
  apply take_rows_of_concat.
  induction ks; simpl; constructor; auto.
Qed.

Lemma flatten_pairs_length (ks : list (R * R)) :
  length (flatten_pairs ks) = (length ks * 2)%nat.
Proof.
  unfold flatten_pairs. rewrite (concat_length_rows 2).
  - now rewrite length_map.
  - induction ks; simpl; constructor; auto.
Qed.

Lemma Cexp_phase (t : R) :
  Cexp (Cmul (Copp Cj) (RtoC t)) = (cos t, - sin t).
Proof.
  unfold Cexp, Cmul, Copp, Cj, RtoC. simpl.
  replace (- 0 * t - - (1) * 0) with 0 by ring.
  replace (- 0 * 0 + - (1) * t) with (- t) by ring.
  rewrite exp_0, cos_neg, sin_neg. f_equal; ring.
Qed.

Lemma phase_zero (k : R * R) : phase k 0 0 = (1, 0).
Proof.
  unfold phase. rewrite Cexp_phase.
  replace (2 * PI * (fst k * 0 + snd k * 0)) with 0 by ring.
  rewrite cos_0, sin_0. f_equal. ring.
Qed.

Lemma compute_shifts_pairs (lead : list nat) (ks : list (R * R)) (x y : R) :
  length ks = size_of lead ->
  compute_shifts (mk_ndarray (lead ++ [2%nat]) (flatten_pairs ks)) [x; y]
  = Ok (mk_ndarray lead (map (fun k => phase k x y) ks)).
Proof.
  intros Hl. unfold compute_shifts, matmul. cbn [shape data].
  rewrite split_last_app. cbn [length Nat.eqb bind shape data].
  rewrite <- Hl, take_rows_flatten_pairs, !map_map.
  do 2 f_equal. apply map_ext. intros [kx ky].
  unfold phase, dot. simpl. do 3 f_equal. ring.
Qed.

(** C4.  For every frequency grid of 2D entries (k_x, k_y) and every offset
    (x, y), [compute_shifts] returns the array of the leading shape of the
    grid, one entry per grid entry, whose entry is
    exp(-i 2 pi (k_x x + k_y y)), that is
    cos(2 pi (k_x x + k_y y)) - i sin(2 pi (k_x x + k_y y)); [Pose.shifts]
    does so with the in-plane part of the pose's offset; and with the offset
    (0, 0) every entry is 1 + 0i. *)
Theorem compute_shifts_phase (lead : list nat) (ks : list (R * R)) (x y : R)
    (p : Pose.t) :
  length ks = size_of lead ->
  let freqs := mk_ndarray (lead ++ [2%nat]) (flatten_pairs ks) in
  wf_array freqs
  /\ compute_shifts freqs [x; y]
     = Ok (mk_ndarray lead (map (fun k => phase k x y) ks))
  /\ (forall k, phase k x y
                = (cos (2 * PI * (fst k * x + snd k * y)),
                   - sin (2 * PI * (fst k * x + snd k * y))))
  /\ Pose.shifts p freqs
     = Ok (mk_ndarray lead
             (map (fun k => phase k (offset_x (Pose.base p))
                              (offset_y (Pose.base p))) ks))
  /\ compute_shifts freqs [0; 0]
     = Ok (mk_ndarray lead (map (fun _ => (1, 0)) ks)).
Proof.
  intros Hl freqs. subst freqs. split; [|split; [|split; [|split]]].
  - unfold wf_array. cbn [shape data].
    rewrite flatten_pairs_length, size_of_app, Hl. reflexivity.
  - now apply compute_shifts_pairs.
  - intros k. apply Cexp_phase.
  - unfold Pose.shifts, Pose.offset. cbn [firstn].
    now apply compute_shifts_pairs.
  - rewrite compute_shifts_pairs by exact Hl.
    do 2 f_equal. apply map_ext. intros k. apply phase_zero.
Qed.

Lemma compute_shifts_phase_witness :
  length [(1, 0)] = size_of [1%nat]
  /\ compute_shifts (mk_ndarray [1%nat; 2%nat] [1; 0]) [1 / 2; 0]
     = Ok (mk_ndarray [1%nat] [phase (1, 0) (1 / 2) 0]).
Proof.
  split; [reflexivity|].
  apply (compute_shifts_phase [1%nat] [(1, 0)] (1 / 2) 0
           (Pose.Quaternion (QuaternionPose.of_quaternion 1 0 0 0))).
  reflexivity.
Defined.

(** The example of the specification: the frequency (1, 0) and the offset
    (0.5, 0) give the phase factor -1 + 0i. *)
Lemma phase_half_shift : phase (1, 0) (1 / 2) 0 = (-1, 0).
Proof.
  unfold phase. rewrite Cexp_phase. simpl.
  replace (2 * PI * (1 * (1 / 2) + 0 * 0)) with PI by field.
  rewrite cos_PI, sin_PI. f_equal. ring.
Qed.

(** C9, as amended.  With an offset of two entries the encoder accepts only
    frequency grids whose last axis has length 2: on a grid whose entries
    have any other number of components, [compute_shifts] and [Pose.shifts]
    raise the shape error of the matrix product and return nothing. *)
Theorem compute_shifts_rejects_wide_grid (freqs : ndarray R)
    (lead : list nat) (k : nat) (x y : R) (p : Pose.t) :
  shape freqs = lead ++ [k] ->
  k <> 2%nat ->
  compute_shifts freqs [x; y] = Err JaxShapeError
  /\ Pose.shifts p freqs = Err JaxShapeError.
Proof.
  intros Hs Hk.
  assert (H : forall a b, compute_shifts freqs [a; b] = Err JaxShapeError).
  { intros a b. unfold compute_shifts, matmul.
    rewrite Hs, split_last_app. cbn [length].
    destruct (Nat.eqb_spec k 2) as [E | _]; [contradiction|reflexivity]. }
  split; [apply H|].
  unfold Pose.shifts, Pose.offset. cbn [firstn]. apply H.
Qed.

Lemma compute_shifts_rejects_wide_grid_witness :
  shape (mk_ndarray [1%nat; 3%nat] [1; 0; 5]) = [1%nat] ++ [3%nat]
  /\ 3%nat <> 2%nat
  /\ compute_shifts (mk_ndarray [1%nat; 3%nat] [1; 0; 5]) [1 / 2; 0]
     = Err JaxShapeError.
Proof.
  split; [reflexivity|]. split; [discriminate|].
  apply (compute_shifts_rejects_wide_grid
           (mk_ndarray [1%nat; 3%nat] [1; 0; 5]) [1%nat] 3 (1 / 2) 0
           (Pose.Quaternion (QuaternionPose.of_quaternion 1 0 0 0)));
    [reflexivity | discriminate].
Defined.

(** C9 fails as stated: the grid with the single entry (1, 0, 5) is
    rejected, by [compute_shifts] and by [Pose.shifts], while the grid
    truncated to the entry (1, 0) is accepted. *)
Lemma compute_shifts_wide_grid_counterexample :
  let wide := mk_ndarray [1%nat; 3%nat] [1; 0; 5] in
  let truncated := mk_ndarray [1%nat; 2%nat] [1; 0] in
  let p := Pose.Quaternion
             (QuaternionPose.mk (mk_offsets (1 / 2) 0 0) false 1 0 0 0) in
  wf_array wide
  /\ compute_shifts wide [1 / 2; 0] = Err JaxShapeError
  /\ Pose.shifts p wide = Err JaxShapeError
  /\ compute_shifts truncated [1 / 2; 0] = Ok (mk_ndarray [1%nat] [(-1, 0)])
  /\ Pose.shifts p truncated = Ok (mk_ndarray [1%nat] [(-1, 0)]).
Proof.
  cbv zeta.
  assert (H : compute_shifts (mk_ndarray [1%nat; 2%nat] [1; 0]) [1 / 2; 0]
              = Ok (mk_ndarray [1%nat] [(-1, 0)])).
  { change (mk_ndarray [1%nat; 2%nat] [1; 0])
      with (mk_ndarray ([1%nat] ++ [2%nat]) (flatten_pairs [(1, 0)])).
    rewrite compute_shifts_pairs by reflexivity.
    cbn [map]. now rewrite phase_half_shift. }
  repeat split; try exact H.
Qed.

(** ** Malformed conventions *)

Lemma find_not_axis_forallb (chars : list ascii) :
  match find not_axis chars with None => true | Some _ => false end
  = forallb (fun c => negb (not_axis c)) chars.
Proof.
  induction chars as [|c chars IH]; [reflexivity|].
  simpl. destruct (not_axis c); [reflexivity|exact IH].
Qed.

Lemma convention_error_accepted (convention : string) :
  match convention_error convention with None => true | Some _ => false end
  = accepted_convention convention.
Proof.
  unfold convention_error, accepted_convention.
  rewrite <- find_not_axis_forallb.
  destruct (find not_axis (list_ascii_of_string convention)); [reflexivity|].
  rewrite Nat.ltb_antisym.
  destruct (3 <=? length (list_ascii_of_string convention))%nat; reflexivity.
Qed.

(** C7, as amended.  Constructing an Euler pose checks nothing.  Its first
    use, the [rotation] accessor, raises an error exactly when the
    convention has a character outside x, y, z (the attribute error of the
    first such character) or, failing that, fewer than three characters (an
    index error); a convention of three or more characters, all of them
    among x, y, z, is accepted. *)
Theorem euler_convention_outcome (p : EulerPose.t) :
  is_ok (EulerPose.rotation p) = accepted_convention (EulerPose.convention p)
  /\ match convention_error (EulerPose.convention p) with
     | Some e => EulerPose.rotation p = Err e
     | None => is_ok (EulerPose.rotation p) = true
     end.
Proof.
  pose proof (make_euler_rotation_outcome (EulerPose.view_phi p)
                (EulerPose.view_theta p) (EulerPose.view_psi p)
                (EulerPose.convention p) (EulerPose.intrinsic p)
                (EulerPose.degrees p)) as H.
  rewrite <- convention_error_accepted. unfold EulerPose.rotation.
  destruct (convention_error (EulerPose.convention p)) as [e|].
  - rewrite H. split; reflexivity.
  - destruct (make_euler_rotation _ _ _ _ _ _); [|discriminate].
    split; reflexivity.
Qed.

(** The two kinds of error, on examples. *)
Example convention_bad_character :
  EulerPose.rotation (EulerPose.mk default_offsets "zyw" true false true 0 0 0)
  = Err (AttributeError "from_w_radians").
Proof. reflexivity. Qed.

Example convention_too_short :
  EulerPose.rotation (EulerPose.mk default_offsets "zy" true false true 0 0 0)
  = Err IndexError.
Proof. reflexivity. Qed.

(** C7 fails as stated: the convention [zyzx] has four characters, and the
    Euler pose built with it yields a rotation, the one of [zyz]. *)
Lemma euler_convention_counterexample :
  let p := EulerPose.mk default_offsets "zyzx" true false true 30 60 90 in
  String.length (EulerPose.convention p) = 4%nat
  /\ is_ok (EulerPose.rotation p) = true
  /\ EulerPose.rotation p = EulerPose.rotation (EulerPose.of_angles 30 60 90).
Proof. cbv zeta. repeat split. Qed.

(** ** Degrees and radians *)

Lemma sin_cos_half (t : R) :
  cos t = cos (t / 2) * cos (t / 2) - sin (t / 2) * sin (t / 2).
Proof.
  replace t with (2 * (t / 2)) at 1 by field. apply cos_2a.
Qed.

(** Under the convention zyz the composed rotation sends the z axis to a
    vector whose z component is the cosine of the middle angle. *)
Lemma zyz_z_axis (a b c : R) :
  snd (SO3.apply_vec
         (SO3.from_z_radians a @@ SO3.from_y_radians b @@ SO3.from_z_radians c)
         (0, 0, 1))
  = cos b.
Proof.
  rewrite (sin_cos_half b).
  unfold SO3.apply_vec. simpl.
  pose proof (cos2_sin2 (a / 2)) as Ha.
  pose proof (cos2_sin2 (c / 2)) as Hc.
  set (ca := cos (a / 2)) in *. set (sa := sin (a / 2)) in *.
  set (cb := cos (b / 2)) in *. set (sb := sin (b / 2)) in *.
  set (cc := cos (c / 2)) in *. set (sc := sin (c / 2)) in *.
  transitivity ((cb * cb - sb * sb) * (ca * ca + sa * sa)
                * (cc * cc + sc * sc)); [ring|].
  rewrite Ha, Hc. ring.
Qed.

Lemma cos_degree_radian : cos (deg2rad 1) <> cos 1.
Proof.
  pose proof PI_RGT_0 as H0. pose proof PI_4 as H4. pose proof PI2_1 as H1.
  assert (H : cos 1 < cos (deg2rad 1)).
  { unfold deg2rad. apply cos_decreasing_1; lra. }
  lra.
Qed.

(** C10.  [make_euler_rotation] called with the angles alone reads them as
    radians, [EulerPose] built with the angles alone reads them as degrees,
    and for the angles (1, 1, 1) the two rotations differ: they send the z
    axis to different vectors. *)
Theorem default_degrees_differ :
  (forall a b c,
      make_euler_rotation_default a b c
      = make_euler_rotation a b c "zyz" true false)
  /\ (forall a b c,
         EulerPose.degrees (EulerPose.of_angles a b c) = true
         /\ EulerPose.rotation (EulerPose.of_angles a b c)
            = make_euler_rotation a b c "zyz" true true)
  /\ exists a b c R_pose R_function,
       a <> 0 /\ b <> 0 /\ c <> 0
       /\ EulerPose.rotation (EulerPose.of_angles a b c) = Ok R_pose
       /\ make_euler_rotation_default a b c = Ok R_function
       /\ SO3.apply_vec R_pose (0, 0, 1) <> SO3.apply_vec R_function (0, 0, 1)
       /\ R_pose <> R_function.
Proof.
  split; [reflexivity|]. split.
  { intros a b c. split; [reflexivity|].
    unfold EulerPose.rotation. cbn [EulerPose.of_angles EulerPose.view_phi
      EulerPose.view_theta EulerPose.view_psi EulerPose.convention
      EulerPose.intrinsic EulerPose.degrees EulerPose.inverse].
    destruct (make_euler_rotation a b c "zyz" true true); reflexivity. }
  exists 1, 1, 1.
  exists (SO3.from_z_radians (deg2rad 1) @@ SO3.from_y_radians (deg2rad 1)
          @@ SO3.from_z_radians (deg2rad 1)).
  exists (SO3.from_z_radians 1 @@ SO3.from_y_radians 1 @@ SO3.from_z_radians 1).
  assert (Hd : SO3.apply_vec
                 (SO3.from_z_radians (deg2rad 1)
                  @@ SO3.from_y_radians (deg2rad 1)
                  @@ SO3.from_z_radians (deg2rad 1)) (0, 0, 1)
               <> SO3.apply_vec
                    (SO3.from_z_radians 1 @@ SO3.from_y_radians 1
                     @@ SO3.from_z_radians 1) (0, 0, 1)).
  { intros H. apply (f_equal snd) in H. rewrite !zyz_z_axis in H.
    exact (cos_degree_radian H). }
  repeat split; try lra; try exact Hd.
  intros H. apply Hd. now rewrite H.
Qed.

(** * Further properties of the module *)

(** ** Rotating a Coordinate Set row by row *)

Lemma rows3_Forall (c : ndarray R) :
  valid_coordinates c -> Forall (fun r => length r = 3%nat) (rows3 c).
Proof.
  intros Hv. apply take_rows_Forall. now apply valid_coordinates_rows.
Qed.

Lemma rows3_concat (c : ndarray R) :
  valid_coordinates c -> concat (rows3 c) = data c.
Proof.
  intros Hv. apply take_rows_concat. now apply valid_coordinates_rows.
Qed.

Lemma rows3_rotate_each (q : SO3.t) (c : ndarray R) :
  valid_coordinates c ->
  rows3 (rotate_each q c) = map (rotate_row q) (rows3 c).
Proof.
  intros Hv. unfold rows3 at 1.
  rewrite (rotate_each_data_length q c Hv).
  unfold rotate_each. cbn [data]. fold (rows3 c).
  replace (length (data c) / 3)%nat
    with (length (map (rotate_row q) (rows3 c)))
    by (rewrite length_map; apply take_rows_length).
  apply take_rows_of_concat, rotate_rows_Forall, rows3_Forall, Hv.
Qed.

Lemma rotate_row_multiply (a b : SO3.t) (row : list R) :
  length row = 3%nat ->
  rotate_row a (rotate_row b row) = rotate_row (a @@ b) row.
Proof.
  destruct row as [|v1 [|v2 [|v3 [|v4 r]]]]; try discriminate.
  intros _. unfold rotate_row. rewrite apply_vec_multiply.
  destruct (SO3.apply_vec b (v1, v2, v3)) as [[r1 r2] r3].
  reflexivity.
Qed.

Lemma rotate_each_multiply (a b : SO3.t) (c : ndarray R) :
  valid_coordinates c ->
  rotate_each a (rotate_each b c) = rotate_each (a @@ b) c.
Proof.
  intros Hv.
  assert (H : data (rotate_each a (rotate_each b c))
              = data (rotate_each (a @@ b) c)).
  { change (data (rotate_each a (rotate_each b c)))
      with (concat (map (rotate_row a) (rows3 (rotate_each b c)))).
    rewrite (rows3_rotate_each b c Hv), map_map.
    change (data (rotate_each (a @@ b) c))
      with (concat (map (rotate_row (a @@ b)) (rows3 c))).
    f_equal. apply map_ext_Forall.
    generalize (rows3_Forall c Hv). apply Forall_impl.
    intros row Hrow. now apply rotate_row_multiply. }
  unfold rotate_each in *. cbn [shape data] in *. now rewrite H.
Qed.

Lemma rotate_row_identity (q : SO3.t) (row : list R) :
  (forall v, SO3.apply_vec q v = v) ->
  length row = 3%nat -> rotate_row q row = row.
Proof.
  intros Hq.
  destruct row as [|v1 [|v2 [|v3 [|v4 r]]]]; try discriminate.
  intros _. unfold rotate_row. now rewrite Hq.
Qed.

Lemma rotate_each_identity (q : SO3.t) (c : ndarray R) :
  (forall v, SO3.apply_vec q v = v) ->
  valid_coordinates c -> rotate_each q c = c.
Proof.
  intros Hq Hv. unfold rotate_each. fold (rows3 c).
  replace (map (rotate_row q) (rows3 c)) with (rows3 c).
  - rewrite (rows3_concat c Hv). now destruct c.
  - rewrite <- (map_id (rows3 c)) at 1. apply map_ext_Forall.
    generalize (rows3_Forall c Hv). apply Forall_impl.
    intros row Hrow. symmetry. now apply rotate_row_identity.
Qed.

(** X11.  Rotating a Coordinate Set by one rotation and the result by
    another is rotating it once by their product; the output is again a
    Coordinate Set of the same shape. *)
Theorem rotate_coordinates_compose (a b : SO3.t) (c : ndarray R) :
  valid_coordinates c ->
  (t <- rotate_coordinates c b ;; rotate_coordinates t a)
  = rotate_coordinates c (a @@ b)
  /\ exists u, rotate_coordinates c (a @@ b) = Ok u
               /\ shape u = shape c /\ valid_coordinates u.
Proof.
  intros Hv. rewrite !rotate_coordinates_valid by assumption.
  cbn [bind].
  rewrite rotate_coordinates_valid by now apply rotate_each_valid.
  rewrite rotate_each_multiply by assumption. split; [reflexivity|].
  eexists. split; [reflexivity|]. split; [reflexivity|].
  now apply rotate_each_valid.
Qed.

Lemma rotate_coordinates_compose_witness :
  let c := mk_ndarray [1%nat; 3%nat] [1; 2; 3] in
  valid_coordinates c
  /\ (t <- rotate_coordinates c (SO3.from_x_radians 1) ;;
      rotate_coordinates t (SO3.from_z_radians 2))
     = rotate_coordinates c (SO3.from_z_radians 2 @@ SO3.from_x_radians 1).
Proof.
  cbv zeta. split; [exact cloud_123_valid|].
  apply (rotate_coordinates_compose (SO3.from_z_radians 2)
           (SO3.from_x_radians 1) (mk_ndarray [1%nat; 3%nat] [1; 2; 3])).
  exact cloud_123_valid.
Defined.

(** ** Lengths of the rotated vectors *)

Lemma sumsq_rotate_row (q : SO3.t) (row : list R) :
  length row = 3%nat ->
  sumsq (rotate_row q row) = SO3.norm2 q * SO3.norm2 q * sumsq row.
Proof.
  destruct row as [|v1 [|v2 [|v3 [|v4 r]]]]; try discriminate.
  intros _. pose proof (apply_vec_norm q v1 v2 v3) as H.
  unfold rotate_row.
  destruct (SO3.apply_vec q (v1, v2, v3)) as [[r1 r2] r3].
  unfold sumsq. simpl. lra.
Qed.

(** X3.  A pose whose rotation is a unit quaternion conserves lengths:
    [rotate] returns an array of the same shape in which every 3-vector has
    the squared length of the 3-vector it comes from, for either value of
    [real]. *)
Theorem rotate_preserves_lengths (p : Pose.t) (c : ndarray R) (real : bool) :
  unit_pose p ->
  valid_coordinates c ->
  exists t, Pose.rotate p c real = Ok t
            /\ shape t = shape c
            /\ map sumsq (rows3 t) = map sumsq (rows3 c).
Proof.
  intros Hp Hv. destruct (unit_pose_rotation p Hp) as [R0 [HR Hn]].
  unfold Pose.rotate. rewrite HR. cbn [bind].
  rewrite rotate_coordinates_valid by assumption.
  eexists. split; [reflexivity|]. split; [reflexivity|].
  rewrite rows3_rotate_each by assumption. rewrite map_map.
  apply map_ext_Forall.
  generalize (rows3_Forall c Hv). apply Forall_impl. intros row Hrow.
  rewrite sumsq_rotate_row by assumption.
  destruct real; [rewrite norm2_inverse|]; rewrite Hn; ring.
Qed.

Lemma rotate_preserves_lengths_witness :
  let p := Pose.Euler (EulerPose.of_angles 30 60 90) in
  let c := mk_ndarray [1%nat; 3%nat] [1; 2; 3] in
  unit_pose p /\ valid_coordinates c
  /\ exists t, Pose.rotate p c true = Ok t
               /\ shape t = shape c
               /\ map sumsq (rows3 t) = map sumsq (rows3 c).
Proof.
  cbv zeta. split; [reflexivity|]. split; [exact cloud_123_valid|].
  apply (rotate_preserves_lengths
           (Pose.Euler (EulerPose.of_angles 30 60 90))
           (mk_ndarray [1%nat; 3%nat] [1; 2; 3]) true).
  - reflexivity.
  - exact cloud_123_valid.
Defined.

(** X15.  Without normalisation the round trip is a scaling: for every pose
    that has a rotation and every Coordinate Set, rotating in real space and
    then in Fourier space multiplies every entry by the square of the squared
    norm of the pose's quaternion. *)
Theorem rotate_round_trip_scales (p : Pose.t) (R0 : SO3.t) (c : ndarray R) :
  Pose.rotation p = Ok R0 ->
  valid_coordinates c ->
  (t <- Pose.rotate p c true ;; Pose.rotate p t false)
  = Ok (mk_ndarray (shape c)
          (map (Rmult (SO3.norm2 R0 * SO3.norm2 R0)) (data c))).
Proof.
  intros HR Hv. unfold Pose.rotate. rewrite HR. cbn [bind].
  rewrite (rotate_coordinates_valid _ c Hv). cbn [bind].
  rewrite rotate_coordinates_valid by now apply rotate_each_valid.
  f_equal. apply rotate_each_scaled; [|exact Hv].
  intros v1 v2 v3. apply apply_vec_inverse_r.
Qed.

Lemma rotate_round_trip_scales_witness :
  let p := Pose.Quaternion (QuaternionPose.of_quaternion 2 0 0 0) in
  let c := mk_ndarray [1%nat; 3%nat] [1; 2; 3] in
  Pose.rotation p = Ok (SO3.mk 2 0 0 0)
  /\ valid_coordinates c
  /\ (t <- Pose.rotate p c true ;; Pose.rotate p t false)
     = Ok (mk_ndarray (shape c)
             (map (Rmult (SO3.norm2 (SO3.mk 2 0 0 0)
                          * SO3.norm2 (SO3.mk 2 0 0 0))) (data c))).
Proof.
  cbv zeta. split; [reflexivity|]. split; [exact cloud_123_valid|].
  apply (rotate_round_trip_scales
           (Pose.Quaternion (QuaternionPose.of_quaternion 2 0 0 0))
           (SO3.mk 2 0 0 0) (mk_ndarray [1%nat; 3%nat] [1; 2; 3])).
  - reflexivity.
  - exact cloud_123_valid.
Defined.

(** ** The identity *)

Lemma elementary_zero (a : axis) : elementary a 0 = SO3.identity.
Proof.
  destruct a; unfold elementary, SO3.from_x_radians, SO3.from_y_radians,
    SO3.from_z_radians, SO3.identity;
    replace (0 / 2) with 0 by field; now rewrite cos_0, sin_0.
Qed.

Lemma constructor_of_zero (c : ascii) : constructor_of c 0 = SO3.identity.
Proof.
  unfold constructor_of. destruct (axis_of_char c) as [a|].
  - apply elementary_zero.
  - apply (elementary_zero X).
Qed.

Lemma multiply_identity_l (q : SO3.t) : SO3.identity @@ q = q.
Proof. destruct q. apply SO3_eq; simpl; ring. Qed.

Lemma inverse_identity : SO3.inverse SO3.identity = SO3.identity.
Proof. apply SO3_eq; simpl; ring. Qed.

Lemma apply_vec_identity (v : R * R * R) : SO3.apply_vec SO3.identity v = v.
Proof.
  destruct v as [[v1 v2] v3]. unfold SO3.apply_vec.
  f_equal; [f_equal|]; simpl; ring.
Qed.

Lemma deg2rad_zero : deg2rad 0 = 0.
Proof. unfold deg2rad. ring. Qed.

Lemma make_euler_rotation_zero (convention : string)
    (intrinsic degrees : bool) :
  convention_error convention = None ->
  make_euler_rotation 0 0 0 convention intrinsic degrees = Ok SO3.identity.
Proof.
  unfold convention_error, make_euler_rotation.
  rewrite mapM_getattr.
  destruct (find not_axis (list_ascii_of_string convention));
    [discriminate|].
  destruct (list_ascii_of_string convention) as [|c1 [|c2 [|c3 chars]]];
    try discriminate.
  intros _. cbn [bind map index nth_error].
  assert (Hz : (if degrees then deg2rad 0 else 0) = 0)
    by (destruct degrees; [apply deg2rad_zero|reflexivity]).
  rewrite Hz, !constructor_of_zero, !multiply_identity_l.
  now destruct intrinsic.
Qed.

(** X4.  An Euler pose with all three angles zero is the identity, whatever
    its accepted convention and its flags: its rotation is the identity
    quaternion and [rotate] returns the Coordinate Set it is given.  So is
    the quaternion pose (1, 0, 0, 0), the default one. *)
Theorem zero_angles_identity (b : offsets) (convention : string)
    (intrinsic inverse degrees real : bool) (c : ndarray R) :
  accepted_convention convention = true ->
  valid_coordinates c ->
  let e := EulerPose.mk b convention intrinsic inverse degrees 0 0 0 in
  let q := QuaternionPose.mk b inverse 1 0 0 0 in
  EulerPose.rotation e = Ok SO3.identity
  /\ Pose.rotate (Pose.Euler e) c real = Ok c
  /\ Pose.rotate (Pose.Quaternion q) c real = Ok c.
Proof.
  intros Ha Hv e q. subst e q.
  assert (He : convention_error convention = None).
  { pose proof (convention_error_accepted convention) as H.
    rewrite Ha in H. now destruct (convention_error convention). }
  assert (Hr : EulerPose.rotation
                 (EulerPose.mk b convention intrinsic inverse degrees 0 0 0)
               = Ok SO3.identity).
  { unfold EulerPose.rotation. cbn [EulerPose.view_phi EulerPose.view_theta
      EulerPose.view_psi EulerPose.convention EulerPose.intrinsic
      EulerPose.degrees EulerPose.inverse].
    rewrite make_euler_rotation_zero by exact He. cbn [bind].
    destruct inverse; [now rewrite inverse_identity|reflexivity]. }
  split; [exact Hr|]. split.
  - unfold Pose.rotate. cbn [Pose.rotation]. rewrite Hr. cbn [bind].
    rewrite rotate_coordinates_valid by assumption. f_equal.
    apply rotate_each_identity; [|exact Hv].
    intros v. destruct real; [rewrite inverse_identity|];
      apply apply_vec_identity.
  - unfold Pose.rotate. cbn [Pose.rotation bind].
    rewrite rotate_coordinates_valid by assumption. f_equal.
    apply rotate_each_identity; [|exact Hv].
    intros v. unfold QuaternionPose.rotation, SO3.from_wxyz.
    cbn [QuaternionPose.inverse QuaternionPose.view_qw QuaternionPose.view_qx
         QuaternionPose.view_qy QuaternionPose.view_qz].
    fold SO3.identity.
    destruct inverse, real; rewrite ?inverse_identity;
      apply apply_vec_identity.
Qed.

Lemma zero_angles_identity_witness :
  let c := mk_ndarray [1%nat; 3%nat] [1; 2; 3] in
  accepted_convention "xyz" = true
  /\ valid_coordinates c
  /\ Pose.rotate
       (Pose.Euler (EulerPose.mk default_offsets "xyz" false true true 0 0 0))
       c true = Ok c.
Proof.
  cbv zeta. split; [reflexivity|]. split; [exact cloud_123_valid|].
  apply (zero_angles_identity default_offsets "xyz" false true true true
           (mk_ndarray [1%nat; 3%nat] [1; 2; 3])).
  - reflexivity.
  - exact cloud_123_valid.
Defined.

(** ** The flags of the parameterizations *)

(** X7.  The [inverse] flag of a pose and the [real] flag of [rotate] cancel:
    flipping both leaves the result of [rotate] unchanged, on every input,
    for Euler and for quaternion poses. *)
Theorem inverse_and_real_cancel (b : offsets) (convention : string)
    (intrinsic inverse degrees real : bool) (phi theta psi qw qx qy qz : R)
    (c : ndarray R) :
  Pose.rotate
    (Pose.Euler (EulerPose.mk b convention intrinsic (negb inverse) degrees
                   phi theta psi)) c (negb real)
  = Pose.rotate
      (Pose.Euler (EulerPose.mk b convention intrinsic inverse degrees
                     phi theta psi)) c real
  /\ Pose.rotate
       (Pose.Quaternion (QuaternionPose.mk b (negb inverse) qw qx qy qz))
       c (negb real)
     = Pose.rotate
         (Pose.Quaternion (QuaternionPose.mk b inverse qw qx qy qz)) c real.
Proof.
  split.
  - unfold Pose.rotate, Pose.rotation, EulerPose.rotation.
    cbn [EulerPose.view_phi EulerPose.view_theta EulerPose.view_psi
         EulerPose.convention EulerPose.intrinsic EulerPose.degrees
         EulerPose.inverse].
    destruct (make_euler_rotation phi theta psi convention intrinsic degrees)
      as [R0|e]; [|reflexivity].
    cbn [bind].
    destruct inverse, real; cbn [negb]; now rewrite ?inverse_involutive.
  - unfold Pose.rotate, Pose.rotation, QuaternionPose.rotation.
    cbn [QuaternionPose.inverse QuaternionPose.view_qw QuaternionPose.view_qx
         QuaternionPose.view_qy QuaternionPose.view_qz bind].
    destruct inverse, real; cbn [negb]; now rewrite ?inverse_involutive.
Qed.

(** The [degrees] flag is a conversion of the three angles and nothing
    else: with it set, [make_euler_rotation] gives what it gives without it
    on the angles multiplied by pi / 180, errors included. *)
Lemma degrees_is_conversion (phi theta psi : R) (convention : string)
    (intrinsic : bool) :
  make_euler_rotation phi theta psi convention intrinsic true
  = make_euler_rotation (phi * (PI / 180)) (theta * (PI / 180))
      (psi * (PI / 180)) convention intrinsic false.
Proof.
  unfold make_euler_rotation.
  destruct (mapM _ (list_ascii_of_string convention)) as [rotations|e];
    reflexivity.
Qed.

(** X8.  The extrinsic composition is the intrinsic one read backwards: with
    [intrinsic] false, a convention of three axes and three angles give the
    rotation that the reversed convention and the reversed angles give with
    [intrinsic] true. *)
Theorem extrinsic_is_reversed_intrinsic (a1 a2 a3 : axis) (phi theta psi : R)
    (degrees : bool) :
  make_euler_rotation phi theta psi (convention_of a1 a2 a3) false degrees
  = make_euler_rotation psi theta phi (convention_of a3 a2 a1) true degrees.
Proof.
  unfold make_euler_rotation, convention_of.
  cbn [list_ascii_of_string mapM].
  rewrite !getattr_axis. reflexivity.
Qed.

Lemma inverse_elementary (a : axis) (t : R) :
  SO3.inverse (elementary a t) = elementary a (- t).
Proof.
  assert (H : - t / 2 = - (t / 2)) by field.
  destruct a;
    unfold elementary, SO3.from_x_radians, SO3.from_y_radians,
      SO3.from_z_radians, SO3.inverse;
    cbn [SO3.w SO3.x SO3.y SO3.z];
    rewrite H, cos_neg, sin_neg; f_equal; ring.
Qed.

Lemma deg2rad_opp (a : R) : deg2rad (- a) = - deg2rad a.
Proof. unfold deg2rad. ring. Qed.

(** X9.  Inverting an Euler rotation is negating its angles and composing
    the other way round: the pose with [inverse] set has the rotation of the
    pose with [inverse] cleared, [intrinsic] flipped and the three angles
    negated. *)
Theorem inverse_is_negated_angles (b : offsets) (a1 a2 a3 : axis)
    (intrinsic degrees : bool) (phi theta psi : R) :
  EulerPose.rotation
    (EulerPose.mk b (convention_of a1 a2 a3) intrinsic true degrees
       phi theta psi)
  = EulerPose.rotation
      (EulerPose.mk b (convention_of a1 a2 a3) (negb intrinsic) false degrees
         (- phi) (- theta) (- psi)).
Proof.
  unfold EulerPose.rotation, make_euler_rotation, convention_of.
  cbn [EulerPose.view_phi EulerPose.view_theta EulerPose.view_psi
       EulerPose.convention EulerPose.intrinsic EulerPose.degrees
       EulerPose.inverse list_ascii_of_string mapM].
  rewrite !getattr_axis. cbn [bind index nth_error]. f_equal.
  destruct intrinsic, degrees; cbn [negb];
    rewrite !inverse_multiply, !inverse_elementary, ?deg2rad_opp,
      ?multiply_assoc; reflexivity.
Qed.

(** ** Angles one full turn apart *)

Lemma elementary_turn (a : axis) (t : R) :
  elementary a (t + 2 * PI) = negate (elementary a t).
Proof.
  assert (H : (t + 2 * PI) / 2 = t / 2 + PI) by field.
  destruct a;
    unfold elementary, SO3.from_x_radians, SO3.from_y_radians,
      SO3.from_z_radians, negate;
    cbn [SO3.w SO3.x SO3.y SO3.z];
    rewrite H, neg_cos, neg_sin; f_equal; ring.
Qed.

Lemma negate_multiply_l (a b : SO3.t) : negate a @@ b = negate (a @@ b).
Proof. apply SO3_eq; simpl; ring. Qed.

Lemma negate_multiply_r (a b : SO3.t) : a @@ negate b = negate (a @@ b).
Proof. apply SO3_eq; simpl; ring. Qed.

Lemma inverse_negate (a : SO3.t) :
  SO3.inverse (negate a) = negate (SO3.inverse a).
Proof. apply SO3_eq; simpl; ring. Qed.

(** A quaternion and its negation act in the same way. *)
Lemma apply_vec_negate (a : SO3.t) (v : R * R * R) :
  SO3.apply_vec (negate a) v = SO3.apply_vec a v.
Proof.
  destruct v as [[v1 v2] v3]. unfold SO3.apply_vec.
  f_equal; [f_equal|]; simpl; ring.
Qed.

Lemma apply_negate (a : SO3.t) (target : ndarray R) :
  SO3.apply (negate a) target = SO3.apply a target.
Proof.
  unfold SO3.apply.
  destruct (shape target) as [|[|[|[|[|n]]]] [|m s]]; try reflexivity.
  destruct (data target) as [|v1 [|v2 [|v3 [|v4 r]]]]; try reflexivity.
  now rewrite apply_vec_negate.
Qed.

Lemma mapM_ext {A B : Type} (f g : A -> result B) (l : list A) :
  (forall a, f a = g a) -> mapM f l = mapM g l.
Proof.
  intros H. induction l as [|a l IH]; [reflexivity|].
  cbn [mapM]. now rewrite H, IH.
Qed.

Lemma vmap_ext (f g : ndarray R -> result (ndarray R)) (a : ndarray R) :
  (forall t, f t = g t) -> vmap f a = vmap g a.
Proof.
  intros H. unfold vmap. destruct (shape a) as [|n rest]; [reflexivity|].
  now rewrite H, (mapM_ext f g _ H).
Qed.

Lemma rotate_coordinates_negate (q : SO3.t) (c : ndarray R) :
  rotate_coordinates c (negate q) = rotate_coordinates c q.
Proof.
  unfold rotate_coordinates.
  destruct (shape c) as [|n1 [|n2 [|n3 [|n4 [|n5 s]]]]]; try reflexivity.
  - apply vmap_ext, apply_negate.
  - destruct (reshape c _) as [flat|e]; [|reflexivity]. cbn [bind].
    now rewrite (vmap_ext _ _ flat (apply_negate q)).
Qed.

Lemma to_radians_turn (degrees : bool) (a : R) :
  (if degrees then (a + full_turn degrees) * PI / 180
   else a + full_turn degrees)
  = (if degrees then a * PI / 180 else a) + 2 * PI.
Proof. destruct degrees; unfold full_turn; [field|reflexivity]. Qed.

(** The composition with one angle a full turn further is the negated
    quaternion, whichever angle it is. *)
Lemma spec_euler_composition_turn (a1 a2 a3 : axis) (phi theta psi : R)
    (intrinsic degrees : bool) :
  let q := spec_euler_composition a1 a2 a3 phi theta psi intrinsic degrees in
  spec_euler_composition a1 a2 a3 (phi + full_turn degrees) theta psi
    intrinsic degrees = negate q
  /\ spec_euler_composition a1 a2 a3 phi (theta + full_turn degrees) psi
       intrinsic degrees = negate q
  /\ spec_euler_composition a1 a2 a3 phi theta (psi + full_turn degrees)
       intrinsic degrees = negate q.
Proof.
  unfold spec_euler_composition. cbv zeta.
  rewrite !to_radians_turn, !elementary_turn.
  destruct intrinsic;
    rewrite ?negate_multiply_l, ?negate_multiply_r, ?negate_multiply_l;
    repeat split.
Qed.

Lemma euler_rotate_negated (b : offsets) (a1 a2 a3 : axis)
    (intrinsic inverse degrees real : bool) (phi theta psi phi' theta' psi' : R)
    (c : ndarray R) :
  spec_euler_composition a1 a2 a3 phi' theta' psi' intrinsic degrees
  = negate (spec_euler_composition a1 a2 a3 phi theta psi intrinsic degrees) ->
  Pose.rotate
    (Pose.Euler (EulerPose.mk b (convention_of a1 a2 a3) intrinsic inverse
                   degrees phi' theta' psi')) c real
  = Pose.rotate
      (Pose.Euler (EulerPose.mk b (convention_of a1 a2 a3) intrinsic inverse
                     degrees phi theta psi)) c real.
Proof.
  intros H. unfold Pose.rotate, Pose.rotation, EulerPose.rotation.
  cbn [EulerPose.view_phi EulerPose.view_theta EulerPose.view_psi
       EulerPose.convention EulerPose.intrinsic EulerPose.degrees
       EulerPose.inverse].
  rewrite !make_euler_rotation_axes, H. cbn [bind].
  destruct inverse, real;
    rewrite ?inverse_negate, ?inverse_negate;
    apply rotate_coordinates_negate.
Qed.

(** X10.  Angles wrap: adding one full turn (360 when [degrees] is set,
    2 pi otherwise) to any one of the three angles of an Euler pose leaves
    the result of [rotate] unchanged, on every input. *)
Theorem euler_angles_wrap (b : offsets) (a1 a2 a3 : axis)
    (intrinsic inverse degrees real : bool) (phi theta psi : R)
    (c : ndarray R) :
  let pose := fun x y z =>
    Pose.Euler (EulerPose.mk b (convention_of a1 a2 a3) intrinsic inverse
                  degrees x y z) in
  Pose.rotate (pose (phi + full_turn degrees) theta psi) c real
  = Pose.rotate (pose phi theta psi) c real
  /\ Pose.rotate (pose phi (theta + full_turn degrees) psi) c real
     = Pose.rotate (pose phi theta psi) c real
  /\ Pose.rotate (pose phi theta (psi + full_turn degrees)) c real
     = Pose.rotate (pose phi theta psi) c real.
Proof.
  cbv zeta.
  destruct (spec_euler_composition_turn a1 a2 a3 phi theta psi intrinsic
              degrees) as [H1 [H2 H3]].
  repeat split; apply euler_rotate_negated; assumption.
Qed.

(** ** Algebra of the phase factors *)

Lemma phase_plus (k : R * R) (x1 y1 x2 y2 : R) :
  phase k (x1 + x2) (y1 + y2) = Cmul (phase k x1 y1) (phase k x2 y2).
Proof.
  unfold phase. rewrite !Cexp_phase.
  replace (2 * PI * (fst k * (x1 + x2) + snd k * (y1 + y2)))
    with (2 * PI * (fst k * x1 + snd k * y1)
          + 2 * PI * (fst k * x2 + snd k * y2)) by ring.
  rewrite cos_plus, sin_plus. unfold Cmul. cbn [fst snd]. f_equal; ring.
Qed.

Lemma phase_norm (k : R * R) (x y : R) : Cnorm2 (phase k x y) = 1.
Proof.
  unfold phase. rewrite Cexp_phase. unfold Cnorm2. cbn [fst snd].
  generalize (cos2_sin2 (2 * PI * (fst k * x + snd k * y))). lra.
Qed.

Lemma phase_opp_offset (k : R * R) (x y : R) :
  phase k (- x) (- y) = Cconj (phase k x y).
Proof.
  unfold phase. rewrite !Cexp_phase.
  replace (2 * PI * (fst k * - x + snd k * - y))
    with (- (2 * PI * (fst k * x + snd k * y))) by ring.
  rewrite cos_neg, sin_neg. reflexivity.
Qed.

Lemma phase_opp_frequency (k : R * R) (x y : R) :
  phase (- fst k, - snd k) x y = Cconj (phase k x y).
Proof.
  unfold phase. rewrite !Cexp_phase. cbn [fst snd].
  replace (2 * PI * (- fst k * x + - snd k * y))
    with (- (2 * PI * (fst k * x + snd k * y))) by ring.
  rewrite cos_neg, sin_neg. reflexivity.
Qed.

Lemma map_combine_maps {A B D E : Type} (f : A -> B) (g : A -> D)
    (h : B * D -> E) (l : list A) :
  map h (combine (map f l) (map g l)) = map (fun a => h (f a, g a)) l.
Proof. induction l as [|a l IH]; simpl; [reflexivity|now rewrite IH]. Qed.

(** X5.  Translations compose: on a grid of 2D frequencies the phase factors
    of the sum of two offsets are, entry by entry, the products of the phase
    factors of the two offsets. *)
Theorem compute_shifts_additive (lead : list nat) (ks : list (R * R))
    (x1 y1 x2 y2 : R) :
  length ks = size_of lead ->
  let freqs := mk_ndarray (lead ++ [2%nat]) (flatten_pairs ks) in
  exists s1 s2,
    compute_shifts freqs [x1; y1] = Ok s1
    /\ compute_shifts freqs [x2; y2] = Ok s2
    /\ compute_shifts freqs [x1 + x2; y1 + y2]
       = Ok (mk_ndarray lead
               (map (fun z => Cmul (fst z) (snd z))
                  (combine (data s1) (data s2)))).
Proof.
  intros Hl freqs. subst freqs.
  rewrite !compute_shifts_pairs by exact Hl.
  eexists. eexists. split; [reflexivity|]. split; [reflexivity|].
  cbn [data]. rewrite map_combine_maps. cbn [fst snd].
  do 2 f_equal. apply map_ext. intros k. apply phase_plus.
Qed.

Lemma compute_shifts_additive_witness :
  length [(1, 0)] = size_of [1%nat]
  /\ exists s1 s2,
       compute_shifts (mk_ndarray [1%nat; 2%nat] [1; 0]) [1; 2] = Ok s1
       /\ compute_shifts (mk_ndarray [1%nat; 2%nat] [1; 0]) [3; 4] = Ok s2
       /\ compute_shifts (mk_ndarray [1%nat; 2%nat] [1; 0]) [1 + 3; 2 + 4]
          = Ok (mk_ndarray [1%nat]
                  (map (fun z => Cmul (fst z) (snd z))
                     (combine (data s1) (data s2)))).
Proof.
  split; [reflexivity|].
  apply (compute_shifts_additive [1%nat] [(1, 0)] 1 2 3 4). reflexivity.
Defined.

(** X6.  The phase factors are pure phases: on a grid of 2D frequencies
    [compute_shifts] returns, and every entry of its result has modulus 1. *)
Theorem compute_shifts_unit_modulus (lead : list nat) (ks : list (R * R))
    (x y : R) :
  length ks = size_of lead ->
  exists s,
    compute_shifts (mk_ndarray (lead ++ [2%nat]) (flatten_pairs ks)) [x; y]
    = Ok s
    /\ shape s = lead
    /\ length (data s) = length ks
    /\ Forall (fun z => Cnorm2 z = 1) (data s).
Proof.
  intros Hl. rewrite compute_shifts_pairs by exact Hl.
  eexists. split; [reflexivity|]. split; [reflexivity|].
  cbn [data]. split; [apply length_map|].
  apply Forall_map, Forall_forall. intros k _. apply phase_norm.
Qed.

Lemma compute_shifts_unit_modulus_witness :
  length [(1, 0); (0, 1)] = size_of [2%nat]
  /\ exists s,
       compute_shifts (mk_ndarray [2%nat; 2%nat] [1; 0; 0; 1]) [1 / 2; 3]
       = Ok s
       /\ shape s = [2%nat]
       /\ length (data s) = 2%nat
       /\ Forall (fun z => Cnorm2 z = 1) (data s).
Proof.
  split; [reflexivity|].
  apply (compute_shifts_unit_modulus [2%nat] [(1, 0); (0, 1)] (1 / 2) 3).
  reflexivity.
Defined.

(** X14.  Conjugate symmetry: negating the offset, or negating every
    frequency of the grid, turns every phase factor into its complex
    conjugate. *)
Theorem compute_shifts_conjugate (lead : list nat) (ks : list (R * R))
    (x y : R) :
  length ks = size_of lead ->
  exists s,
    compute_shifts (mk_ndarray (lead ++ [2%nat]) (flatten_pairs ks)) [x; y]
    = Ok s
    /\ compute_shifts (mk_ndarray (lead ++ [2%nat]) (flatten_pairs ks))
         [- x; - y]
       = Ok (mk_ndarray lead (map Cconj (data s)))
    /\ compute_shifts
         (mk_ndarray (lead ++ [2%nat])
            (flatten_pairs (map (fun k => (- fst k, - snd k)) ks))) [x; y]
       = Ok (mk_ndarray lead (map Cconj (data s))).
Proof.
  intros Hl. rewrite !compute_shifts_pairs
    by (rewrite ?length_map; exact Hl).
  eexists. split; [reflexivity|]. cbn [data]. rewrite !map_map. split.
  - do 2 f_equal. apply map_ext. intros k. apply phase_opp_offset.
  - do 2 f_equal. apply map_ext. intros k. apply phase_opp_frequency.
Qed.

Lemma compute_shifts_conjugate_witness :
  length [(1, 0)] = size_of [1%nat]
  /\ exists s,
       compute_shifts (mk_ndarray [1%nat; 2%nat] [1; 0]) [1 / 4; 0] = Ok s
       /\ compute_shifts (mk_ndarray [1%nat; 2%nat] [1; 0]) [- (1 / 4); - 0]
          = Ok (mk_ndarray [1%nat] (map Cconj (data s)))
       /\ compute_shifts
            (mk_ndarray [1%nat; 2%nat]
               (flatten_pairs (map (fun k => (- fst k, - snd k)) [(1, 0)])))
            [1 / 4; 0]
          = Ok (mk_ndarray [1%nat] (map Cconj (data s))).
Proof.
  split; [reflexivity|].
  apply (compute_shifts_conjugate [1%nat] [(1, 0)] (1 / 4) 0). reflexivity.
Defined.

(** ** What the operations of a pose depend on *)

(** X1.  [shifts] reads the in-plane offset and nothing else: two poses with
    the same [offset_x] and [offset_y] give the same result on every grid,
    whatever their [offset_z], their variant and their orientation. *)
Theorem shifts_depends_on_in_plane_offset (p1 p2 : Pose.t)
    (freqs : ndarray R) :
  offset_x (Pose.base p1) = offset_x (Pose.base p2) ->
  offset_y (Pose.base p1) = offset_y (Pose.base p2) ->
  Pose.shifts p1 freqs = Pose.shifts p2 freqs
  /\ Pose.shifts p1 freqs
     = compute_shifts freqs
         [offset_x (Pose.base p1); offset_y (Pose.base p1)].
Proof.
  intros Hx Hy. unfold Pose.shifts, Pose.offset. cbn [firstn].
  now rewrite Hx, Hy.
Qed.

Lemma shifts_depends_on_in_plane_offset_witness :
  let p1 := Pose.Euler
              (EulerPose.mk (mk_offsets 1 2 3) "zyz" true false true 10 20 30) in
  let p2 := Pose.Quaternion
              (QuaternionPose.mk (mk_offsets 1 2 7) true 0 1 0 0) in
  let freqs := mk_ndarray [1%nat; 2%nat] [1; 0] in
  offset_x (Pose.base p1) = offset_x (Pose.base p2)
  /\ offset_y (Pose.base p1) = offset_y (Pose.base p2)
  /\ Pose.shifts p1 freqs = Pose.shifts p2 freqs.
Proof.
  cbv zeta. split; [reflexivity|]. split; [reflexivity|].
  apply (shifts_depends_on_in_plane_offset
           (Pose.Euler
              (EulerPose.mk (mk_offsets 1 2 3) "zyz" true false true 10 20 30))
           (Pose.Quaternion
              (QuaternionPose.mk (mk_offsets 1 2 7) true 0 1 0 0))
           (mk_ndarray [1%nat; 2%nat] [1; 0])); reflexivity.
Defined.

(** X2.  An Euler pose whose convention is rejected fails in [rotate] with
    the error of the convention, before the coordinates are looked at: the
    same error for every array, of a valid shape or not, and for either
    value of [real].  Its [shifts] are not affected. *)
Theorem rejected_convention_in_rotate (e : EulerPose.t) (err : exn)
    (c freqs : ndarray R) (real : bool) :
  convention_error (EulerPose.convention e) = Some err ->
  Pose.rotate (Pose.Euler e) c real = Err err
  /\ Pose.shifts (Pose.Euler e) freqs
     = compute_shifts freqs
         [offset_x (EulerPose.base e); offset_y (EulerPose.base e)].
Proof.
  intros H. split; [|reflexivity].
  pose proof (make_euler_rotation_outcome (EulerPose.view_phi e)
                (EulerPose.view_theta e) (EulerPose.view_psi e)
                (EulerPose.convention e) (EulerPose.intrinsic e)
                (EulerPose.degrees e)) as Ho.
  rewrite H in Ho.
  unfold Pose.rotate, Pose.rotation, EulerPose.rotation.
  now rewrite Ho.
Qed.

Lemma rejected_convention_in_rotate_witness :
  let e := EulerPose.mk (mk_offsets (1 / 2) 0 0) "zy" true false true 0 0 0 in
  convention_error (EulerPose.convention e) = Some IndexError
  /\ Pose.rotate (Pose.Euler e) (zeros [2%nat; 2%nat; 3%nat]) true
     = Err IndexError.
Proof.
  cbv zeta. split; [reflexivity|].
  apply (rejected_convention_in_rotate
           (EulerPose.mk (mk_offsets (1 / 2) 0 0) "zy" true false true 0 0 0)
           IndexError (zeros [2%nat; 2%nat; 3%nat])
           (zeros [1%nat; 2%nat]) true).
  reflexivity.
Defined.

(** ** Arrays whose last axis is not 3 *)

Lemma apply_wrong_length (q : SO3.t) (k : nat) :
  k <> 3%nat -> SO3.apply q (zeros [k]) = Err AssertionError.
Proof.
  intros Hk. unfold SO3.apply. cbn [shape zeros].
  destruct k as [|[|[|[|k]]]]; try reflexivity. contradiction.
Qed.

(** X12.  The rank test does not look at the last axis.  A rank-2 array
    whose rows do not have three entries is stopped by the shape assertion
    of [apply], whatever the number of rows; a rank-4 array whose last axis
    is not 3 and that has at least one entry is stopped by the first
    [reshape].  Neither gets the [ValueError] of [rotate_coordinates]. *)
Theorem rotate_coordinates_wrong_last_axis (q : SO3.t) (c : ndarray R)
    (n1 n2 n3 k : nat) :
  k <> 3%nat ->
  shape c = [n1; k]
  \/ (shape c = [n1; n2; n3; k] /\ (n1 * n2 * n3 <> 0)%nat) ->
  rotate_coordinates c q
  = Err (if (length (shape c) =? 2)%nat then AssertionError
         else JaxShapeError)
  /\ rotate_coordinates c q <> Err (ValueError rotate_coordinates_message).
Proof.
  intros Hk [Hs | [Hs Hn]].
  - unfold rotate_coordinates, vmap. rewrite Hs.
    rewrite apply_wrong_length by exact Hk. split; [reflexivity|discriminate].
  - unfold rotate_coordinates, reshape. rewrite Hs.
    assert (E : (size_of [(n1 * n2 * n3)%nat; 3%nat]
                 =? size_of [n1; n2; n3; k])%nat = false).
    { apply Nat.eqb_neq. simpl. nia. }
    rewrite E. split; [reflexivity|discriminate].
Qed.

Lemma rotate_coordinates_wrong_last_axis_witness :
  4%nat <> 3%nat
  /\ shape (zeros [5%nat; 4%nat]) = [5%nat; 4%nat]
  /\ rotate_coordinates (zeros [5%nat; 4%nat]) SO3.identity
     = Err AssertionError.
Proof.
  split; [discriminate|]. split; [reflexivity|].
  apply (rotate_coordinates_wrong_last_axis SO3.identity
           (zeros [5%nat; 4%nat]) 5 0 0 4);
    [discriminate | left; reflexivity].
Defined.

(** X13.  A rank-4 array without entries passes whatever its last axis is:
    when one of N1, N2, N3 is zero, [rotate_coordinates] returns the empty
    array of shape (N1, N2, N3, 3), also for an input of shape
    (N1, N2, N3, K) with K other than 3, whose shape is then not kept. *)
Theorem rotate_coordinates_empty_grid (q : SO3.t) (c : ndarray R)
    (n1 n2 n3 k : nat) :
  shape c = [n1; n2; n3; k] ->
  (n1 * n2 * n3 = 0)%nat ->
  rotate_coordinates c q = Ok (mk_ndarray [n1; n2; n3; 3%nat] []).
Proof.
  intros Hs Hn.
  assert (E4 : forall j, size_of [n1; n2; n3; j] = 0%nat).
  { intros j. simpl. nia. }
  assert (Hflat : reshape c [(n1 * n2 * n3)%nat; 3%nat]
                  = Ok (mk_ndarray [0%nat; 3%nat] (data c))).
  { unfold reshape. rewrite Hs, Hn, E4. reflexivity. }
  unfold rotate_coordinates. rewrite Hs, Hflat. cbn [bind].
  unfold vmap. cbn [shape].
  replace (zeros [3%nat]) with (mk_ndarray [3%nat] [0; 0; 0]) by reflexivity.
  rewrite apply_row by reflexivity.
  cbn [bind unstack take_rows map mapM concat data shape].
  unfold reshape. cbn [shape]. rewrite E4. reflexivity.
Qed.

Lemma rotate_coordinates_empty_grid_witness :
  shape (zeros [0%nat; 2%nat; 2%nat; 4%nat]) = [0%nat; 2%nat; 2%nat; 4%nat]
  /\ (0 * 2 * 2 = 0)%nat
  /\ rotate_coordinates (zeros [0%nat; 2%nat; 2%nat; 4%nat]) SO3.identity
     = Ok (mk_ndarray [0%nat; 2%nat; 2%nat; 3%nat] []).
Proof.
  split; [reflexivity|]. split; [reflexivity|].
  apply (rotate_coordinates_empty_grid SO3.identity
           (zeros [0%nat; 2%nat; 2%nat; 4%nat]) 0 2 2 4); reflexivity.
Defined.
